(** * Siamese one-shot trainer: the control loop of [trainer.py]

    A shallow embedding of [Trainer.train], [Trainer.test],
    [Trainer.save_checkpoint] and [Trainer.load_checkpoint], and the
    properties of the evaluation pass, the checkpoint store, early stopping,
    the checkpoint cadence, resuming and the log files.

    Modelling conventions.
    - Python [int]s are [Z]; [range(0, n)] is the list [0; 1; ...; n-1]
      (empty when [n <= 0]).
    - Python floats that the loop computes ([correct / num_valid],
      [100. * correct / num_test]) are exact rationals in [Q], kept in lowest
      terms by [Qred] so that equal values are equal terms.  Rounding is not
      modelled.
    - The network, the optimizer and the data loaders live outside
      [trainer.py]; they are the [Section] variables of [Trainer].
    - Exceptions are values of [exn]; code that can raise returns [result].
    - The checkpoint directory is an association list from file name to
      record, in the order in which the directory lists its entries. *)

From Stdlib Require Import ZArith QArith Qreduction List String Ascii Bool Lia.
From Stdlib Require Import Permutation Sorted DecimalString DecimalPos DecimalZ.
Import ListNotations.

Local Open Scope Z_scope.

(** ** Exceptions and results *)

Inductive exn : Type :=
| NameError (name : string)
| IndexError
| ZeroDivisionError
| FileNotFoundError (path : string)
| RuntimeError.

Inductive result (A : Type) : Type :=
| Ok (a : A)
| Raise (e : exn).

Arguments Ok {A} a.
Arguments Raise {A} e.

Definition bind {A B : Type} (r : result A) (k : A -> result B) : result B :=
  match r with
  | Ok a => k a
  | Raise e => Raise e
  end.

Notation "x <- r ;; k" := (bind r (fun x => k))
  (at level 61, r at next level, right associativity).

Definition is_ok {A : Type} (r : result A) : bool :=
  match r with Ok _ => true | Raise _ => false end.

(** ** Numbers *)

(** [a / b] on Python numbers: true division, [ZeroDivisionError] on a zero
    divisor. *)
Definition truediv (a b : Z) : result Q :=
  if b =? 0 then Raise ZeroDivisionError
  else Ok (Qred (inject_Z a / inject_Z b)).

(** [x > y] on floats. *)
Definition Qgtb (x y : Q) : bool := negb (Qle_bool x y).

(** [range(0, n)]. *)
Definition range0 (n : Z) : list Z := map Z.of_nat (seq 0 (Z.to_nat n)).

(** [str(n)] for an [int]. *)
Definition str_of_int (n : Z) : string := NilZero.string_of_int (Z.to_int n).

(** ** Checkpoint records and the checkpoint directory *)

Section Store.

(** [model.state_dict()] and [optimizer.state_dict()]. *)
Variables ModelState OptimState : Type.

(** The dictionary handed to [save_checkpoint]. *)
Record Ckpt : Type := mkCkpt {
  ck_epoch : Z;
  ck_model_state : ModelState;
  ck_optim_state : OptimState;
  ck_best_valid_acc : Q;
  ck_best_epoch : Z
}.

(** Files of one directory, keyed by full path, in listing order. *)
Definition Dir : Type := list (string * Ckpt).

(** [os.path.join(self.model_dir, filename)], for a directory name without
    a trailing separator and a relative file name. *)
Definition path_join (d f : string) : string := (d ++ "/" ++ f)%string.

(** [torch.save(state, path)]: an existing file is replaced where it is,
    a new one is listed last. *)
Fixpoint torch_save (path : string) (state : Ckpt) (d : Dir) : Dir :=
  match d with
  | [] => [(path, state)]
  | (p, c) :: d' =>
      if String.eqb p path then (p, state) :: d'
      else (p, c) :: torch_save path state d'
  end.

(** [torch.load(path)]. *)
Fixpoint torch_load (path : string) (d : Dir) : result Ckpt :=
  match d with
  | [] => Raise (FileNotFoundError path)
  | (p, c) :: d' => if String.eqb p path then Ok c else torch_load path d'
  end.

(** [save_checkpoint(state, is_best)]. *)
Definition save_checkpoint (model_dir : string) (state : Ckpt)
    (is_best : bool) (d : Dir) : Dir :=
  let filename :=
    if is_best then "best_model.tar"%string
    else ("model_ckpt_" ++ str_of_int (ck_epoch state) ++ ".tar")%string in
  let model_path := path_join model_dir filename in
  torch_save model_path state d.

(** The two kinds of path [save_checkpoint] writes to: the periodic
    record tagged with an epoch, and the best record. *)
Definition ckpt_file (model_dir : string) (e : Z) : string :=
  path_join model_dir ("model_ckpt_" ++ str_of_int e ++ ".tar").

Definition best_file (model_dir : string) : string :=
  path_join model_dir "best_model.tar".

(** The characters [glob] reads as a pattern: [*], [?] and [[]. *)
Definition magic (c : ascii) : bool :=
  (c =? "*")%char || (c =? "?")%char || (c =? "[")%char.

Fixpoint has_magic (s : string) : bool :=
  match s with
  | EmptyString => false
  | String c s' => magic c || has_magic s'
  end.

Fixpoint ends_with_sep (s : string) : bool :=
  match s with
  | EmptyString => false
  | String c EmptyString => (c =? "/")%char
  | String _ s' => ends_with_sep s'
  end.

(** A directory name that [os.path.join] and [glob] take literally: not
    empty, without a trailing separator, and without a pattern character.
    For such a name the path [save_checkpoint] writes to is
    [model_dir/filename], and [glob(model_dir + '/model_ckpt_*')] lists the
    files of that very directory whose name starts with [model_ckpt_]. *)
Definition plain_dir (model_dir : string) : bool :=
  negb (String.eqb model_dir "") && negb (has_magic model_dir)
  && negb (ends_with_sep model_dir).

(** [glob(self.model_dir + '/model_ckpt_*')] for a [plain_dir]: the paths
    of the directory that start with the pattern's literal part, in listing
    order.  (In a directory name with a pattern character [glob] would
    match other directories; that case is not modelled.) *)
Definition glob_ckpt (model_dir : string) (d : Dir) : list string :=
  filter (String.prefix (model_dir ++ "/model_ckpt_")%string) (map fst d).

(** [sorted(l, key=len)]: a stable sort by length; [x] is put in front of
    the items that are not shorter, so items of equal length keep the
    order they had. *)
Fixpoint insert_by_len (x : string) (l : list string) : list string :=
  match l with
  | [] => [x]
  | y :: l' =>
      if (String.length y <? String.length x)%nat
      then y :: insert_by_len x l'
      else x :: y :: l'
  end.

Fixpoint sorted_by_len (l : list string) : list string :=
  match l with
  | [] => []
  | x :: l' => insert_by_len x (sorted_by_len l')
  end.

(** The order of [key=len]. *)
Definition by_len (x y : string) : Prop :=
  (String.length x <= String.length y)%nat.

(** [l[-1]]. *)
Fixpoint last_item (l : list string) : result string :=
  match l with
  | [] => Raise IndexError
  | [x] => Ok x
  | _ :: l' => last_item l'
  end.

(** [load_checkpoint(best)]; the most recent file is looked up before
    [best] is tested, as in the source. *)
Definition load_checkpoint (model_dir : string) (best : bool) (d : Dir)
    : result Ckpt :=
  model_path <- last_item (sorted_by_len (glob_ckpt model_dir d)) ;;
  let model_path :=
    if best then path_join model_dir "best_model.tar" else model_path in
  torch_load model_path d.

End Store.

Arguments mkCkpt {ModelState OptimState}.
Arguments ck_epoch {ModelState OptimState}.
Arguments ck_model_state {ModelState OptimState}.
Arguments ck_optim_state {ModelState OptimState}.
Arguments ck_best_valid_acc {ModelState OptimState}.
Arguments ck_best_epoch {ModelState OptimState}.
Arguments torch_save {ModelState OptimState}.
Arguments torch_load {ModelState OptimState}.
Arguments save_checkpoint {ModelState OptimState}.
Arguments glob_ckpt {ModelState OptimState}.
Arguments load_checkpoint {ModelState OptimState}.


(** ** Configuration *)

Record Config : Type := mkConfig {
  model_dir : string;
  num_model : string;
  epochs : Z;
  train_patience : Z;
  resume : bool;
  best : bool
}.

(** [self.model_dir], set by [__init__]. *)
Definition self_model_dir (cfg : Config) : string :=
  path_join (model_dir cfg) (num_model cfg).

(** The names bound at module level in [trainer.py] (its imports and its
    class).  A free name of a function body is looked up here, then among
    the builtins, when the statement that mentions it runs. *)
Definition trainer_globals : list string :=
  ["os"; "glob"; "torch"; "optim"; "tqdm"; "get_train_validation_loader";
   "get_test_loader"; "SiameseNet"; "AverageMeter"; "Trainer"]%string.

(** ** Tensors of scores *)

(** The index of the first greatest item of [l], scanning from position [i]
    with the greatest item so far [best_v] at [best_i]. *)
Fixpoint argmax_from (best_i : nat) (best_v : Q) (i : nat) (l : list Q) : nat :=
  match l with
  | [] => best_i
  | v :: l' =>
      if Qgtb v best_v then argmax_from i v (S i) l'
      else argmax_from best_i best_v (S i) l'
  end.

(** Reduction of a 1-D tensor by [max]: the index of its first greatest
    item; an empty tensor cannot be reduced. *)
Definition argmax (l : list Q) : result Z :=
  match l with
  | [] => Raise RuntimeError
  | v :: l' => Ok (Z.of_nat (argmax_from 0 v 1 l'))
  end.

(** Column [0] of a 2-D tensor given by its rows. *)
Fixpoint column0 (t : list (list Q)) : result (list Q) :=
  match t with
  | [] => Ok []
  | row :: t' =>
      match row with
      | [] => Raise IndexError
      | v :: _ => col <- column0 t' ;; Ok (v :: col)
      end
  end.

(** [t.data.max(0)[1][0]]: [max(0)] reduces over the rows, [[1]] takes the
    indices, [[0]] the one of column 0. *)
Definition max0_index0 (t : list (list Q)) : result Z :=
  col <- column0 t ;; argmax col.

(** ** The trainer *)

Section Trainer.

Variables ModelState OptimState : Type.

(** A batch [(x1, x2, y)] of the training loader, and one of the
    validation or test loader: a trial, one row per candidate. *)
Variables TrainBatch Trial : Type.

(** One optimisation step on a batch: [model(x1, x2)], the loss,
    [zero_grad], [backward], [step]; the last component is [loss.item()]. *)
Variable sgd_step :
  ModelState -> OptimState -> TrainBatch -> ModelState * OptimState * Q.

(** [torch.sigmoid(model(x1, x2))] on a trial: a 2-D tensor, one row per
    candidate. *)
Variable log_probas : ModelState -> Trial -> list (list Q).

(** [SiameseNet()] and [optim.Adam(model.parameters(), ...)]. *)
Variable fresh_model : ModelState.
Variable fresh_optim : OptimState.

(** The test loader: its batches and [test_loader.dataset.trials]. *)
Record TestLoader : Type := mkTestLoader {
  test_batches : list Trial;
  dataset_trials : Z
}.

(** A row of [train.csv] or [valid.csv]: the two comma-separated values. *)
Definition Row : Type := (Z * Q)%type.

(** The local variables of [train], the files under [self.model_dir], and
    the two log files with the rows they hold and whether they are open.
    [correct], [valid_acc] and [is_best] are assigned in every epoch before
    they are read. *)
Record TrainState : Type := mkTrainState {
  model : ModelState;
  optimizer : OptimState;
  start_epoch : Z;
  best_epoch : Z;
  best_valid_acc : Q;
  counter : Z;
  correct : Z;
  valid_acc : Q;
  is_best : bool;
  ckpt_dir : Dir ModelState OptimState;
  train_file : list Row;
  valid_file : list Row;
  train_open : bool;
  valid_open : bool
}.

Definition set_net (m : ModelState) (o : OptimState) (s : TrainState) :=
  mkTrainState m o (start_epoch s) (best_epoch s) (best_valid_acc s)
    (counter s) (correct s) (valid_acc s) (is_best s) (ckpt_dir s)
    (train_file s) (valid_file s) (train_open s) (valid_open s).

Definition set_resume (se be : Z) (ba : Q) (s : TrainState) :=
  mkTrainState (model s) (optimizer s) se be ba
    (counter s) (correct s) (valid_acc s) (is_best s) (ckpt_dir s)
    (train_file s) (valid_file s) (train_open s) (valid_open s).

Definition set_counter (c : Z) (s : TrainState) :=
  mkTrainState (model s) (optimizer s) (start_epoch s) (best_epoch s)
    (best_valid_acc s) c (correct s) (valid_acc s) (is_best s) (ckpt_dir s)
    (train_file s) (valid_file s) (train_open s) (valid_open s).

Definition set_correct (c : Z) (s : TrainState) :=
  mkTrainState (model s) (optimizer s) (start_epoch s) (best_epoch s)
    (best_valid_acc s) (counter s) c (valid_acc s) (is_best s) (ckpt_dir s)
    (train_file s) (valid_file s) (train_open s) (valid_open s).

Definition set_valid_acc (a : Q) (s : TrainState) :=
  mkTrainState (model s) (optimizer s) (start_epoch s) (best_epoch s)
    (best_valid_acc s) (counter s) (correct s) a (is_best s) (ckpt_dir s)
    (train_file s) (valid_file s) (train_open s) (valid_open s).

Definition set_improved (epoch : Z) (s : TrainState) :=
  mkTrainState (model s) (optimizer s) (start_epoch s) epoch
    (valid_acc s) 0 (correct s) (valid_acc s) true (ckpt_dir s)
    (train_file s) (valid_file s) (train_open s) (valid_open s).

Definition set_not_improved (s : TrainState) :=
  mkTrainState (model s) (optimizer s) (start_epoch s) (best_epoch s)
    (best_valid_acc s) (counter s + 1) (correct s) (valid_acc s) false
    (ckpt_dir s)
    (train_file s) (valid_file s) (train_open s) (valid_open s).

Definition set_ckpt_dir (d : Dir ModelState OptimState) (s : TrainState) :=
  mkTrainState (model s) (optimizer s) (start_epoch s) (best_epoch s)
    (best_valid_acc s) (counter s) (correct s) (valid_acc s) (is_best s) d
    (train_file s) (valid_file s) (train_open s) (valid_open s).

Definition set_train_file (rows : list Row) (o : bool) (s : TrainState) :=
  mkTrainState (model s) (optimizer s) (start_epoch s) (best_epoch s)
    (best_valid_acc s) (counter s) (correct s) (valid_acc s) (is_best s)
    (ckpt_dir s) rows (valid_file s) o (valid_open s).

Definition set_valid_file (rows : list Row) (o : bool) (s : TrainState) :=
  mkTrainState (model s) (optimizer s) (start_epoch s) (best_epoch s)
    (best_valid_acc s) (counter s) (correct s) (valid_acc s) (is_best s)
    (ckpt_dir s) (train_file s) rows (train_open s) o.

(** *** Statements: state transformers that may raise *)

Definition M (A : Type) : Type := TrainState -> result A * TrainState.

Definition ret {A : Type} (a : A) : M A := fun s => (Ok a, s).

Definition raise {A : Type} (e : exn) : M A := fun s => (Raise e, s).

Definition mbind {A B : Type} (m : M A) (k : A -> M B) : M B :=
  fun s =>
    match m s with
    | (Ok a, s') => k a s'
    | (Raise e, s') => (Raise e, s')
    end.

Definition modify (f : TrainState -> TrainState) : M unit :=
  fun s => (Ok tt, f s).

Definition lift {A : Type} (r : result A) : M A := fun s => (r, s).

Definition get : M TrainState := fun s => (Ok s, s).

Notation "x <~ m ;; k" := (mbind m (fun x => k))
  (at level 61, m at next level, right associativity).
Notation "m ;;; k" := (mbind m (fun _ => k))
  (at level 61, right associativity).

(** [f.write(row)]: the row goes after the rows already there. *)
Definition write_train (r : Row) : M unit :=
  modify (fun s => set_train_file (train_file s ++ [r]) (train_open s) s).

Definition write_valid (r : Row) : M unit :=
  modify (fun s => set_valid_file (valid_file s ++ [r]) (valid_open s) s).

(** [open(path, 'w')]: the file is created or emptied. *)
Definition open_w_train : M unit := modify (set_train_file [] true).
Definition open_w_valid : M unit := modify (set_valid_file [] true).

Definition close_train : M unit :=
  modify (fun s => set_train_file (train_file s) false s).
Definition close_valid : M unit :=
  modify (fun s => set_valid_file (valid_file s) false s).

(** Evaluation of a free name: bound in the module's namespace [g], or
    [NameError]. *)
Definition lookup_global (g : list string) (name : string) : M unit :=
  if existsb (String.eqb name) g then ret tt else raise (NameError name).

Section Train.

Variable cfg : Config.
Variable g : list string.
Variable train_loader : list TrainBatch.
Variable valid_loader : list Trial.

(** The training pass, lines 80-100: batch [i] of the epoch.
    [AverageMeter] is imported from [utils]; its [val] is taken to be the
    value last passed to [update], here the loss of the batch. *)
Fixpoint train_batches (epoch num_train i : Z) (bs : list TrainBatch)
    : M unit :=
  match bs with
  | [] => ret tt
  | b :: bs' =>
      modify (fun s =>
        let '(m, o, loss) := sgd_step (model s) (optimizer s) b in
        set_train_file (train_file s ++ [(epoch * num_train + i, loss)])
          (train_open s) (set_net m o s)) ;;;
      train_batches epoch num_train (i + 1) bs'
  end.

(** The validation pass, lines 109-129, once [correct] and [valid_acc]
    are zeroed. *)
Fixpoint valid_batches (epoch num_valid : Z) (ts : list Trial) : M unit :=
  match ts with
  | [] => ret tt
  | t :: ts' =>
      s <~ get ;;
      pred <~ lift (max0_index0 (log_probas (model s) t)) ;;
      (if pred =? 0 then modify (fun s => set_correct (correct s + 1) s)
       else ret tt) ;;;
      s <~ get ;;
      acc <~ lift (truediv (correct s) num_valid) ;;
      modify (set_valid_acc acc) ;;;
      write_valid (epoch, acc) ;;;
      valid_batches epoch num_valid ts'
  end.

Definition validation (epoch num_valid : Z) : M unit :=
  modify (set_correct 0) ;;;
  modify (set_valid_acc 0%Q) ;;;
  valid_batches epoch num_valid valid_loader.

(** Lines 132-139. *)
Definition improvement (epoch : Z) (s : TrainState) : TrainState :=
  if Qgtb (valid_acc s) (best_valid_acc s) then set_improved epoch s
  else set_not_improved s.

Definition check_improvement (epoch : Z) : M unit :=
  modify (improvement epoch).

(** The condition of line 146. *)
Definition checkpoint_due (is_best : bool) (epoch : Z) : bool :=
  is_best || (epoch mod 5 =? 0) || (epoch =? epochs cfg).

(** Lines 147-155. *)
Definition checkpointed (epoch : Z) (s : TrainState) : TrainState :=
  set_ckpt_dir
    (save_checkpoint (self_model_dir cfg)
       (mkCkpt (epoch + 1) (model s) (optimizer s)
          (best_valid_acc s) (best_epoch s))
       (is_best s) (ckpt_dir s)) s.

Definition checkpoint (epoch : Z) : M unit :=
  modify (checkpointed epoch).

(** How the body of a loop ends: it falls through to the next iteration,
    or executes [return]. *)
Inductive Control : Type := Next | Return.

(** Lines 77-129: the training pass, then the validation pass. *)
Definition passes (num_train num_valid epoch : Z) : M unit :=
  train_batches epoch num_train 0 train_loader ;;;
  validation epoch num_valid.

(** Lines 131-159: the best accuracy, the early stop, the checkpoint, the
    summary. *)
Definition epoch_end (epoch : Z) : M Control :=
  check_improvement epoch ;;;
  s <~ get ;;
  if counter s >? train_patience cfg then ret Return
  else
    (if checkpoint_due (is_best s) epoch then checkpoint epoch
     else ret tt) ;;;
    lookup_global g "log" ;;;
    ret Next.

(** The body of [for epoch in main_pbar], lines 77-159. *)
Definition epoch_body (num_train num_valid epoch : Z) : M Control :=
  passes num_train num_valid epoch ;;;
  epoch_end epoch.

Fixpoint for_epochs (num_train num_valid : Z) (es : list Z) : M Control :=
  match es with
  | [] => ret Next
  | epoch :: es' =>
      c <~ epoch_body num_train num_valid epoch ;;
      match c with
      | Next => for_epochs num_train num_valid es'
      | Return => ret Return
      end
  end.

(** Lines 54-61. *)
Definition load_or_init : M unit :=
  if resume cfg then
    s <~ get ;;
    ck <~ lift (load_checkpoint (self_model_dir cfg) false (ckpt_dir s)) ;;
    modify (fun s =>
      set_resume (ck_epoch ck) (ck_best_epoch ck) (ck_best_valid_acc ck)
        (set_net (ck_model_state ck) (ck_optim_state ck) s))
  else
    modify (set_resume 0 0 0%Q).

(** Lines 46-67: the model, the checkpoint or the defaults, the two log
    files, the counter. *)
Definition train_setup : M unit :=
  modify (set_net fresh_model fresh_optim) ;;;
  load_or_init ;;;
  open_w_train ;;;
  open_w_valid ;;;
  modify (set_counter 0).

(** [train()]: [Next] when the loop ran out of epochs and the files were
    closed, [Return] on the early stop. *)
Definition train : M Control :=
  train_setup ;;;
  let num_train := Z.of_nat (List.length train_loader) in
  let num_valid := Z.of_nat (List.length valid_loader) in
  c <~ for_epochs num_train num_valid (range0 (epochs cfg)) ;;
  match c with
  | Return => ret Return
  | Next => close_train ;;; close_valid ;;; ret Next
  end.

(** The epochs whose body was entered, each with the state in which the
    body ended and how it ended. *)
Fixpoint epoch_trace (num_train num_valid : Z) (es : list Z)
    (s : TrainState) : list (Z * result Control * TrainState) :=
  match es with
  | [] => []
  | epoch :: es' =>
      match epoch_body num_train num_valid epoch s with
      | (Ok Next, s') =>
          (epoch, Ok Next, s') :: epoch_trace num_train num_valid es' s'
      | (r, s') => [(epoch, r, s')]
      end
  end.

(** The trace of the loop of [train()]. *)
Definition train_trace (s : TrainState)
    : list (Z * result Control * TrainState) :=
  match train_setup s with
  | (Ok _, s1) =>
      epoch_trace (Z.of_nat (List.length train_loader))
        (Z.of_nat (List.length valid_loader)) (range0 (epochs cfg)) s1
  | (Raise _, _) => []
  end.

End Train.

(** *** [test()] *)

(** Lines 180-192, from [correct] trials right so far. *)
Fixpoint test_batches_loop (m : ModelState) (correct : Z) (ts : list Trial)
    : result Z :=
  match ts with
  | [] => Ok correct
  | t :: ts' =>
      pred <- max0_index0 (log_probas m t) ;;
      test_batches_loop m (if pred =? 0 then correct + 1 else correct) ts'
  end.

(** [test()]: what the last line prints, [correct], [num_test] and
    [test_acc]. *)
Definition test (cfg : Config) (d : Dir ModelState OptimState)
    (test_loader : TestLoader) : result (Z * Z * Q) :=
  ck <- load_checkpoint (self_model_dir cfg) (best cfg) d ;;
  let m := ck_model_state ck in
  let num_test := dataset_trials test_loader in
  correct <- test_batches_loop m 0 (test_batches test_loader) ;;
  test_acc <- truediv (100 * correct) num_test ;;
  Ok (correct, num_test, test_acc).

End Trainer.

(** ** Closed forms of the two passes

    What the training pass and the validation pass compute, as functions of
    the network and the loader.  The accumulators are those of the loops. *)

Section ClosedForms.

Variables ModelState OptimState TrainBatch Trial : Type.
Variable sgd_step :
  ModelState -> OptimState -> TrainBatch -> ModelState * OptimState * Q.
Variable log_probas : ModelState -> Trial -> list (list Q).

(** The network after the optimisation steps on [bs]. *)
Fixpoint train_net (m : ModelState) (o : OptimState) (bs : list TrainBatch)
    : ModelState * OptimState :=
  match bs with
  | [] => (m, o)
  | b :: bs' => let '(m', o', _) := sgd_step m o b in train_net m' o' bs'
  end.

(** The rows these steps write to [train.csv], from batch [i] on. *)
Fixpoint train_rows (epoch num_train i : Z) (m : ModelState)
    (o : OptimState) (bs : list TrainBatch) : list (Z * Q) :=
  match bs with
  | [] => []
  | b :: bs' =>
      let '(m', o', loss) := sgd_step m o b in
      (epoch * num_train + i, loss)
        :: train_rows epoch num_train (i + 1) m' o' bs'
  end.

(** The network after [k] training passes over [bs]. *)
Fixpoint net_after (k : nat) (m : ModelState) (o : OptimState)
    (bs : list TrainBatch) : ModelState * OptimState :=
  match k with
  | O => (m, o)
  | S k' => let '(m', o') := train_net m o bs in net_after k' m' o' bs
  end.

(** The tensor of the trial can be reduced: [max(0)[1][0]] does not raise. *)
Definition scored (m : ModelState) (t : Trial) : bool :=
  is_ok (max0_index0 (log_probas m t)).

(** The verdict on a trial: [pred == 0]. *)
Definition is_correct (m : ModelState) (t : Trial) : bool :=
  match max0_index0 (log_probas m t) with
  | Ok pred => pred =? 0
  | Raise _ => false
  end.

(** [correct] after the trials [ts], from [c]. *)
Fixpoint count_from (m : ModelState) (c : Z) (ts : list Trial) : Z :=
  match ts with
  | [] => c
  | t :: ts' => count_from m (if is_correct m t then c + 1 else c) ts'
  end.

(** [valid_acc] after the trials [ts], from [a]. *)
Fixpoint acc_from (num_valid : Z) (m : ModelState) (c : Z) (a : Q)
    (ts : list Trial) : Q :=
  match ts with
  | [] => a
  | t :: ts' =>
      let c' := if is_correct m t then c + 1 else c in
      acc_from num_valid m c' (Qred (inject_Z c' / inject_Z num_valid)) ts'
  end.

(** The rows the trials [ts] add to [valid.csv]. *)
Fixpoint running_rows (epoch num_valid : Z) (m : ModelState) (c : Z)
    (ts : list Trial) : list (Z * Q) :=
  match ts with
  | [] => []
  | t :: ts' =>
      let c' := if is_correct m t then c + 1 else c in
      (epoch, Qred (inject_Z c' / inject_Z num_valid))
        :: running_rows epoch num_valid m c' ts'
  end.

(** The number of trials of [ts] with the verdict correct. *)
Definition count_correct (m : ModelState) (ts : list Trial) : Z :=
  Z.of_nat (List.length (filter (is_correct m) ts)).

(** The accuracy of the network on the trials [ts]: the value of
    [valid_acc] when the validation pass over [ts] ends. *)
Definition accuracy (m : ModelState) (ts : list Trial) : Q :=
  acc_from (Z.of_nat (List.length ts)) m 0 0%Q ts.

(** The state after the two passes of an epoch, when no trial raises. *)
Definition after_passes (num_train : Z) (tl : list TrainBatch)
    (vl : list Trial) (epoch : Z) (s : TrainState ModelState OptimState)
    : TrainState ModelState OptimState :=
  let m := fst (train_net (model _ _ s) (optimizer _ _ s) tl) in
  let o := snd (train_net (model _ _ s) (optimizer _ _ s) tl) in
  mkTrainState _ _ m o (start_epoch _ _ s) (best_epoch _ _ s)
    (best_valid_acc _ _ s) (counter _ _ s) (count_from m 0 vl)
    (accuracy m vl) (is_best _ _ s) (ckpt_dir _ _ s)
    (train_file _ _ s
       ++ train_rows epoch num_train 0 (model _ _ s) (optimizer _ _ s) tl)
    (valid_file _ _ s
       ++ running_rows epoch (Z.of_nat (List.length vl)) m 0 vl)
    (train_open _ _ s) (valid_open _ _ s).

(** What the two passes leave alone, whether they raise or not: the
    bookkeeping of the loop, the checkpoints, and the rows already in the
    two logs. *)
Definition passes_frame (epoch : Z) (s s' : TrainState ModelState OptimState)
    : Prop :=
  start_epoch _ _ s' = start_epoch _ _ s
  /\ best_epoch _ _ s' = best_epoch _ _ s
  /\ best_valid_acc _ _ s' = best_valid_acc _ _ s
  /\ counter _ _ s' = counter _ _ s
  /\ is_best _ _ s' = is_best _ _ s
  /\ ckpt_dir _ _ s' = ckpt_dir _ _ s
  /\ train_open _ _ s' = train_open _ _ s
  /\ valid_open _ _ s' = valid_open _ _ s
  /\ (exists rows, train_file _ _ s' = train_file _ _ s ++ rows)
  /\ (exists rows, valid_file _ _ s' = valid_file _ _ s ++ rows
                   /\ Forall (fun row => fst row = epoch) rows).

(** A property of every step of a trace: [R s epoch s'] for the state [s]
    in which the body of [epoch] starts and the state [s'] in which it
    ends. *)
Fixpoint chain (R : TrainState ModelState OptimState -> Z ->
                    TrainState ModelState OptimState -> Prop)
    (s : TrainState ModelState OptimState)
    (tr : list (Z * result Control * TrainState ModelState OptimState))
    : Prop :=
  match tr with
  | [] => True
  | (epoch, _, s') :: tr' => R s epoch s' /\ chain R s' tr'
  end.

(** One epoch of the two logs. The rows of the training pass go after
    those already in [train.csv]. The rows added to [valid.csv] go after
    those already there, carry the epoch, and are the running accuracies of
    the validation pass, in order: row [k] holds the number of correct
    trials among the first [k + 1], divided by [num_valid]. When the two
    passes complete, all running accuracies are there, one per validation
    trial, and the last one is the accuracy of the epoch. *)
Definition log_step (tl : list TrainBatch) (vl : list Trial) (nt nv : Z)
    (s : TrainState ModelState OptimState) (epoch : Z)
    (s' : TrainState ModelState OptimState) : Prop :=
  let m1 := fst (train_net (model _ _ s) (optimizer _ _ s) tl) in
  exists vrows rest,
    train_file _ _ s'
    = train_file _ _ s
      ++ train_rows epoch nt 0 (model _ _ s) (optimizer _ _ s) tl
    /\ valid_file _ _ s' = valid_file _ _ s ++ vrows
    /\ running_rows epoch nv m1 0 vl = vrows ++ rest
    /\ Forall (fun row => fst row = epoch) vrows
    /\ (forall k, (k < List.length vrows)%nat ->
          nth_error vrows k
          = Some (epoch,
                  Qred (inject_Z (count_correct m1 (firstn (S k) vl))
                        / inject_Z nv)))
    /\ (fst (passes _ _ _ _ sgd_step log_probas tl vl nt nv epoch s) = Ok tt ->
        rest = []
        /\ List.length vrows = List.length vl
        /\ (vl <> [] ->
            last vrows (epoch, 0%Q) = (epoch, valid_acc _ _ s'))).

(** The network with which epoch [e] of a loop that starts from [(m, o)] is
    validated, and the validation accuracy of that epoch. *)
Definition net_at_epoch (e : nat) (m : ModelState) (o : OptimState)
    (tl : list TrainBatch) : ModelState :=
  fst (net_after (S e) m o tl).

Definition acc_at_epoch (e : nat) (m : ModelState) (o : OptimState)
    (tl : list TrainBatch) (vl : list Trial) : Q :=
  accuracy (net_at_epoch e m o tl) vl.

(** One epoch of the counter of epochs without improvement, for the body
    of [epoch] run from [s] to [s']. The counter stays in its range. If the
    two passes complete, the epoch is the best so far exactly when its
    accuracy is strictly above the best accuracy it started with: the
    counter is then 0, and one more than before otherwise. If a pass raises,
    the counter is as before. The body returns exactly when the passes
    complete and the counter is above the patience. *)
Definition counter_step (cfg : Config) (g : list string)
    (tl : list TrainBatch) (vl : list Trial)
    (s : TrainState ModelState OptimState) (epoch : Z)
    (s' : TrainState ModelState OptimState) : Prop :=
  let nt := Z.of_nat (List.length tl) in
  let nv := Z.of_nat (List.length vl) in
  let m1 := fst (train_net (model _ _ s) (optimizer _ _ s) tl) in
  let completed :=
    fst (passes _ _ _ _ sgd_step log_probas tl vl nt nv epoch s) = Ok tt in
  0 <= counter _ _ s' <= Z.max 0 (train_patience cfg) + 1
  /\ (completed ->
      if Qgtb (accuracy m1 vl) (best_valid_acc _ _ s)
      then is_best _ _ s' = true /\ counter _ _ s' = 0
      else is_best _ _ s' = false /\ counter _ _ s' = counter _ _ s + 1)
  /\ (~ completed ->
      is_best _ _ s' = is_best _ _ s /\ counter _ _ s' = counter _ _ s)
  /\ (fst (epoch_body _ _ _ _ sgd_step log_probas cfg g tl vl nt nv epoch s)
      = Ok Return
      <-> completed /\ train_patience cfg < counter _ _ s').

(** One epoch of best-accuracy bookkeeping: the best accuracy does not
    decrease, and the pair (best accuracy, best epoch) either stays, or
    becomes (this epoch's accuracy, this epoch) with this epoch's accuracy
    strictly above the best so far. *)
Definition best_step (s : TrainState ModelState OptimState) (epoch : Z)
    (s' : TrainState ModelState OptimState) : Prop :=
  (best_valid_acc _ _ s <= best_valid_acc _ _ s')%Q
  /\ ((best_valid_acc _ _ s' = best_valid_acc _ _ s
       /\ best_epoch _ _ s' = best_epoch _ _ s)
      \/ ((best_valid_acc _ _ s < valid_acc _ _ s')%Q
          /\ best_valid_acc _ _ s' = valid_acc _ _ s'
          /\ best_epoch _ _ s' = epoch)).

End ClosedForms.

Arguments train_net {ModelState OptimState TrainBatch}.
Arguments train_rows {ModelState OptimState TrainBatch}.
Arguments net_after {ModelState OptimState TrainBatch}.
Arguments scored {ModelState Trial}.
Arguments is_correct {ModelState Trial}.
Arguments count_from {ModelState Trial}.
Arguments acc_from {ModelState Trial}.
Arguments running_rows {ModelState Trial}.
Arguments count_correct {ModelState Trial}.
Arguments accuracy {ModelState Trial}.
Arguments after_passes {ModelState OptimState TrainBatch Trial}.
Arguments chain {ModelState OptimState}.
Arguments passes_frame {ModelState OptimState}.
Arguments best_step {ModelState OptimState}.
Arguments counter_step {ModelState OptimState TrainBatch Trial}.
Arguments log_step {ModelState OptimState TrainBatch Trial}.
Arguments net_at_epoch {ModelState OptimState TrainBatch}.
Arguments acc_at_epoch {ModelState OptimState TrainBatch Trial}.

Arguments mkTrainState {ModelState OptimState}.
Arguments model {ModelState OptimState}.
Arguments optimizer {ModelState OptimState}.
Arguments start_epoch {ModelState OptimState}.
Arguments best_epoch {ModelState OptimState}.
Arguments best_valid_acc {ModelState OptimState}.
Arguments counter {ModelState OptimState}.
Arguments correct {ModelState OptimState}.
Arguments valid_acc {ModelState OptimState}.
Arguments is_best {ModelState OptimState}.
Arguments ckpt_dir {ModelState OptimState}.
Arguments train_file {ModelState OptimState}.
Arguments valid_file {ModelState OptimState}.
Arguments train_open {ModelState OptimState}.
Arguments valid_open {ModelState OptimState}.
Arguments set_net {ModelState OptimState}.
Arguments set_resume {ModelState OptimState}.
Arguments set_counter {ModelState OptimState}.
Arguments set_correct {ModelState OptimState}.
Arguments set_valid_acc {ModelState OptimState}.
Arguments set_improved {ModelState OptimState}.
Arguments set_not_improved {ModelState OptimState}.
Arguments set_ckpt_dir {ModelState OptimState}.
Arguments set_train_file {ModelState OptimState}.
Arguments set_valid_file {ModelState OptimState}.
Arguments ret {ModelState OptimState A}.
Arguments raise {ModelState OptimState A}.
Arguments mbind {ModelState OptimState A B}.
Arguments modify {ModelState OptimState}.
Arguments lift {ModelState OptimState A}.
Arguments get {ModelState OptimState}.
Arguments lookup_global {ModelState OptimState}.
Arguments train_batches {ModelState OptimState TrainBatch}.
Arguments valid_batches {ModelState OptimState Trial}.
Arguments validation {ModelState OptimState Trial}.
Arguments improvement {ModelState OptimState}.
Arguments check_improvement {ModelState OptimState}.
Arguments checkpointed {ModelState OptimState}.
Arguments checkpoint {ModelState OptimState}.
Arguments passes {ModelState OptimState TrainBatch Trial}.
Arguments epoch_end {ModelState OptimState}.
Arguments epoch_body {ModelState OptimState TrainBatch Trial}.
Arguments for_epochs {ModelState OptimState TrainBatch Trial}.
Arguments load_or_init {ModelState OptimState}.
Arguments train_setup {ModelState OptimState}.
Arguments train {ModelState OptimState TrainBatch Trial}.
Arguments epoch_trace {ModelState OptimState TrainBatch Trial}.
Arguments train_trace {ModelState OptimState TrainBatch Trial}.
Arguments test_batches_loop {ModelState Trial}.
Arguments test {ModelState OptimState Trial}.
Arguments mkTestLoader {Trial}.
Arguments test_batches {Trial}.
Arguments dataset_trials {Trial}.

(** ** A small instance

    The state of the network is the number of optimisation steps taken, a
    training batch is the loss it yields, and a trial gives the tensor of
    scores for each state of the network. *)

Module Toy.

Definition sgd_step (m : nat) (o : unit) (b : Q) : nat * unit * Q :=
  (S m, o, b).

Definition Trial : Type := nat -> list (list Q).

Definition log_probas (m : nat) (t : Trial) : list (list Q) := t m.

(** The true match scores highest; a wrong candidate does; the true match
    does once the network has taken more than [k] steps. *)
Definition hit : Trial := fun _ => [[1%Q]; [0%Q]].
Definition miss : Trial := fun _ => [[0%Q]; [1%Q]].
Definition hit_after (k : nat) : Trial :=
  fun m => if (m <=? k)%nat then [[0%Q]; [1%Q]] else [[1%Q]; [0%Q]].

Definition State : Type := TrainState nat unit.

(** A state before [train()] runs: only the directory and the files
    matter. *)
Definition boot (d : Dir nat unit) (tf vf : list (Z * Q)) : State :=
  mkTrainState 0%nat tt 0 0 0%Q 0 0 0%Q false d tf vf false false.

Definition train (cfg : Config) (g : list string) (tl : list Q)
    (vl : list Trial) : State -> result _ * State :=
  train sgd_step log_probas 0%nat tt cfg g tl vl.

Definition train_trace (cfg : Config) (g : list string) (tl : list Q)
    (vl : list Trial) : State -> list (Z * result _ * State) :=
  train_trace sgd_step log_probas 0%nat tt cfg g tl vl.

Definition test (cfg : Config) (d : Dir nat unit) (l : TestLoader Trial)
    : result (Z * Z * Q) :=
  test log_probas cfg d l.

Definition config (n p : Z) (r b : bool) : Config :=
  mkConfig "models" "1" n p r b.

(** A namespace in which [log] is bound as well. *)
Definition globals_with_log : list string := "log"%string :: trainer_globals.

Definition paths (s : State) : list string := map fst (ckpt_dir s).

Definition ckpt (e : Z) : Ckpt nat unit := mkCkpt e 0%nat tt 0%Q 0.

(** The directory after [save_checkpoint(state, False)] for the epochs
    [es], in that order. *)
Definition saved (es : list Z) : Dir nat unit :=
  fold_left (fun d e => save_checkpoint "models/1" (ckpt e) false d) es [].

(** Ten trials, seven of which the network gets right. *)
Definition ten_trials : list Trial :=
  [hit; miss; hit; hit; miss; hit; hit; miss; hit; hit].

(** The epochs of a trace. *)
Definition epochs_of (tr : list (Z * result Control * State)) : list Z :=
  map (fun x => fst (fst x)) tr.

End Toy.


(** * Properties *)

(** One step of symbolic execution: the monad and the field updates are
    unfolded and the projections reduced. *)
Ltac run :=
  unfold mbind, modify, lift, ret, raise, get, write_train, write_valid,
    open_w_train, open_w_valid, close_train, close_valid,
    set_net, set_resume, set_counter, set_correct, set_valid_acc,
    set_improved, set_not_improved, set_ckpt_dir, set_train_file,
    set_valid_file in *;
  simpl in *.

(** ** Lists *)

Lemma last_cons_default {A : Type} (l : list A) :
  forall a d : A, last (a :: l) d = last l a.
Proof.
  induction l as [|b l IH]; intros a d; [reflexivity|].
  change (last (a :: b :: l) d) with (last (b :: l) d).
  now rewrite !IH.
Qed.

Lemma range0_split (p n : Z) :
  0 <= p -> p + 2 <= n ->
  range0 n
  = 0 :: map Z.of_nat (seq 1 (Z.to_nat p))
      ++ (p + 1) :: map Z.of_nat (seq (Z.to_nat p + 2)
                                      (Z.to_nat n - Z.to_nat p - 2)).
Proof.
  intros Hp Hn. unfold range0.
  set (P := Z.to_nat p).
  replace (Z.to_nat n) with (S (P + S (Z.to_nat n - P - 2)))%nat by lia.
  rewrite <- cons_seq, map_cons. f_equal.
  rewrite seq_app, map_app. f_equal.
  rewrite <- cons_seq, map_cons. f_equal; [lia|].
  do 2 f_equal; lia.
Qed.

Lemma range0_stop (p : Z) :
  0 <= p ->
  range0 (p + 2) = 0 :: map Z.of_nat (seq 1 (Z.to_nat p)) ++ [p + 1].
Proof.
  intros Hp. rewrite (range0_split p (p + 2)) by lia.
  replace (Z.to_nat (p + 2) - Z.to_nat p - 2)%nat with 0%nat by lia.
  reflexivity.
Qed.

Lemma Qgtb_lt (x y : Q) : Qgtb x y = true -> (y < x)%Q.
Proof.
  unfold Qgtb. intros H. apply Qnot_le_lt. intros Hle.
  apply Qle_bool_iff in Hle. rewrite Hle in H. discriminate.
Qed.

Lemma Qgtb_le (x y : Q) : Qgtb x y = false -> (x <= y)%Q.
Proof.
  unfold Qgtb. intros H. apply Qle_bool_iff.
  destruct (Qle_bool x y); [reflexivity | discriminate].
Qed.

Lemma Qlt_gtb (x y : Q) : (y < x)%Q -> Qgtb x y = true.
Proof.
  intros H. unfold Qgtb. destruct (Qle_bool x y) eqn:E; [|reflexivity].
  apply Qle_bool_iff in E. exfalso. exact (Qlt_not_le _ _ H E).
Qed.

Lemma Qle_gtb (x y : Q) : (x <= y)%Q -> Qgtb x y = false.
Proof.
  intros H. unfold Qgtb. apply Qle_bool_iff in H. now rewrite H.
Qed.

(** ** Sorting names by length *)

Lemma last_item_ok (l : list string) :
  l <> [] -> exists x, last_item l = Ok x /\ In x l.
Proof.
  induction l as [|x l IH]; intros H; [contradiction|].
  destruct l as [|y l]; [exists x; simpl; auto|].
  destruct IH as (z & Hz & Hin); [discriminate|].
  exists z. split; [exact Hz | now right].
Qed.

Lemma insert_by_len_nonempty (x : string) (l : list string) :
  insert_by_len x l <> [].
Proof.
  destruct l as [|y l]; simpl; [discriminate|].
  destruct (String.length y <? String.length x)%nat; discriminate.
Qed.

Lemma sorted_by_len_nil (l : list string) :
  sorted_by_len l = [] <-> l = [].
Proof.
  destruct l as [|x l]; simpl; [tauto|].
  split; [|discriminate]. intros H.
  exfalso. exact (insert_by_len_nonempty _ _ H).
Qed.

(** ** The index of the greatest score *)

Lemma argmax_from_range (l : list Q) :
  forall bi bv i,
    argmax_from bi bv i l = bi
    \/ (i <= argmax_from bi bv i l < i + List.length l)%nat.
Proof.
  induction l as [|v l IH]; intros bi bv i; simpl; [now left|].
  destruct (Qgtb v bv).
  - right. destruct (IH i v (S i)) as [H|H]; rewrite ?H; lia.
  - destruct (IH bi bv (S i)) as [H|H]; [now left | right; lia].
Qed.

(** The scan keeps the index it starts with exactly when no later item is
    strictly greater. *)
Lemma argmax_from_keeps (l : list Q) :
  forall bi bv i,
    (bi < i)%nat ->
    (argmax_from bi bv i l = bi <-> Forall (fun w => (w <= bv)%Q) l).
Proof.
  induction l as [|v l IH]; intros bi bv i Hlt; simpl.
  - split; [constructor | reflexivity].
  - destruct (Qgtb v bv) eqn:E.
    + apply Qgtb_lt in E. split.
      * intros H. destruct (argmax_from_range l i v (S i)); lia.
      * intros H. inversion H; subst. exfalso.
        eapply Qlt_not_le; eassumption.
    + apply Qgtb_le in E. rewrite (IH bi bv (S i)) by lia. split.
      * intros H. now constructor.
      * intros H. now inversion H.
Qed.

(** The prediction is index 0 exactly when no candidate scores strictly
    higher than the first one. *)
Lemma argmax_zero (v : Q) (l : list Q) :
  argmax (v :: l) = Ok 0 <-> Forall (fun w => (w <= v)%Q) l.
Proof.
  simpl. rewrite <- (argmax_from_keeps l 0 v 1) by lia. split.
  - intros H. inversion H. lia.
  - intros H. now rewrite H.
Qed.

(** The scan ends on an item that no item is greater than. *)
Lemma argmax_from_max (l : list Q) :
  forall (pre : list Q) bi bv,
    nth_error pre bi = Some bv ->
    Forall (fun w => (w <= bv)%Q) pre ->
    exists v,
      nth_error (pre ++ l) (argmax_from bi bv (List.length pre) l) = Some v
      /\ Forall (fun w => (w <= v)%Q) (pre ++ l).
Proof.
  induction l as [|x l IH]; intros pre bi bv Hn Hf; simpl.
  - exists bv. rewrite app_nil_r. auto.
  - replace (pre ++ x :: l) with ((pre ++ [x]) ++ l)
      by now rewrite <- app_assoc.
    replace (S (List.length pre)) with (List.length (pre ++ [x]))
      by (rewrite length_app; simpl; lia).
    destruct (Qgtb x bv) eqn:E.
    + apply Qgtb_lt in E. apply IH.
      * rewrite nth_error_app2 by lia. now rewrite Nat.sub_diag.
      * apply Forall_app. split; [|constructor; [apply Qle_refl|constructor]].
        eapply Forall_impl; [|exact Hf]. intros w Hw.
        eapply Qle_trans; [exact Hw | now apply Qlt_le_weak].
    + apply Qgtb_le in E. apply IH.
      * rewrite nth_error_app1; [assumption|].
        apply nth_error_Some. congruence.
      * apply Forall_app. split; [assumption | now constructor].
Qed.

Lemma argmax_greatest (l : list Q) (i : Z) :
  argmax l = Ok i ->
  exists v,
    nth_error l (Z.to_nat i) = Some v /\ Forall (fun w => (w <= v)%Q) l.
Proof.
  destruct l as [|x l]; simpl; [discriminate|].
  intros H. inversion H; subst. rewrite Nat2Z.id.
  apply (argmax_from_max l [x] 0%nat x); [reflexivity|].
  constructor; [apply Qle_refl | constructor].
Qed.

(** ** The two passes *)

Section Facts.

Context {ModelState OptimState TrainBatch Trial : Type}.
Variable sgd_step :
  ModelState -> OptimState -> TrainBatch -> ModelState * OptimState * Q.
Variable log_probas : ModelState -> Trial -> list (list Q).
Variable fresh_model : ModelState.
Variable fresh_optim : OptimState.

Lemma train_batches_eq (epoch num_train : Z) (bs : list TrainBatch) :
  forall i (m : ModelState) (o : OptimState) se be ba cn c a ib d tf vf to vo,
    train_batches sgd_step epoch num_train i bs
      (mkTrainState m o se be ba cn c a ib d tf vf to vo)
    = (Ok tt,
       mkTrainState (fst (train_net sgd_step m o bs))
         (snd (train_net sgd_step m o bs)) se be ba cn c a ib d
         (tf ++ train_rows sgd_step epoch num_train i m o bs) vf to vo).
Proof.
  induction bs as [|b bs IH]; intros; simpl.
  - now rewrite app_nil_r.
  - run.
    destruct (sgd_step m o b) as [[m' o'] loss] eqn:E; run.
    rewrite IH, <- app_assoc. reflexivity.
Qed.

Lemma valid_batches_eq (epoch num_valid : Z) (ts : list Trial) :
  num_valid <> 0 ->
  forall (m : ModelState) (o : OptimState) se be ba cn c a ib d tf vf to vo,
    Forall (fun t => scored log_probas m t = true) ts ->
    valid_batches log_probas epoch num_valid ts
      (mkTrainState m o se be ba cn c a ib d tf vf to vo)
    = (Ok tt,
       mkTrainState m o se be ba cn (count_from log_probas m c ts)
         (acc_from log_probas num_valid m c a ts) ib d tf
         (vf ++ running_rows log_probas epoch num_valid m c ts) to vo).
Proof.
  intros Hn. induction ts as [|t ts IH]; intros * Hs; simpl.
  - now rewrite app_nil_r.
  - inversion Hs as [|? ? Ht Hts]; subst.
    run.
    unfold scored in Ht. unfold is_correct.
    destruct (max0_index0 (log_probas m t)) as [p|e]; [|discriminate].
    unfold truediv.
    destruct (p =? 0); run;
      (destruct (num_valid =? 0) eqn:E;
       [apply Z.eqb_eq in E; contradiction|]);
      run; rewrite IH by assumption; rewrite <- app_assoc; reflexivity.
Qed.

(** Whatever happens in the validation loop, it changes [correct] and
    [valid_acc] only and adds rows of this epoch to [valid.csv]. *)
Lemma valid_batches_any (epoch num_valid : Z) (ts : list Trial) :
  forall (m : ModelState) (o : OptimState) se be ba cn c a ib d tf vf to vo,
  exists r c' a' rows,
    valid_batches log_probas epoch num_valid ts
      (mkTrainState m o se be ba cn c a ib d tf vf to vo)
    = (r, mkTrainState m o se be ba cn c' a' ib d tf (vf ++ rows) to vo)
    /\ Forall (fun row => fst row = epoch) rows.
Proof.
  induction ts as [|t ts IH]; intros; simpl.
  - exists (Ok tt), c, a, []. now rewrite app_nil_r.
  - run. destruct (max0_index0 (log_probas m t)) as [p|e]; run.
    2:{ exists (Raise e), c, a, []. now rewrite app_nil_r. }
    destruct (p =? 0); run.
    + destruct (truediv (c + 1) num_valid) as [q|e]; run.
      2:{ exists (Raise e), (c + 1), a, []. now rewrite app_nil_r. }
      destruct (IH m o se be ba cn (c + 1) q ib d tf (vf ++ [(epoch, q)])
                  to vo) as (r & c' & a' & rows & E & F).
      exists r, c', a', ((epoch, q) :: rows).
      split; [|now constructor].
      etransitivity; [exact E|]. now rewrite <- app_assoc.
    + destruct (truediv c num_valid) as [q|e]; run.
      2:{ exists (Raise e), c, a, []. now rewrite app_nil_r. }
      destruct (IH m o se be ba cn c q ib d tf (vf ++ [(epoch, q)])
                  to vo) as (r & c' & a' & rows & E & F).
      exists r, c', a', ((epoch, q) :: rows).
      split; [|now constructor].
      etransitivity; [exact E|]. now rewrite <- app_assoc.
Qed.

Lemma validation_any (vl : list Trial) (epoch num_valid : Z) :
  forall (m : ModelState) (o : OptimState) se be ba cn c a ib d tf vf to vo,
  exists r c' a' rows,
    validation log_probas vl epoch num_valid
      (mkTrainState m o se be ba cn c a ib d tf vf to vo)
    = (r, mkTrainState m o se be ba cn c' a' ib d tf (vf ++ rows) to vo)
    /\ Forall (fun row => fst row = epoch) rows.
Proof.
  intros. unfold validation. run.
  apply valid_batches_any.
Qed.

Lemma validation_eq (vl : list Trial) (epoch : Z) :
  forall (m : ModelState) (o : OptimState) se be ba cn c a ib d tf vf to vo,
    Forall (fun t => scored log_probas m t = true) vl ->
    validation log_probas vl epoch (Z.of_nat (List.length vl))
      (mkTrainState m o se be ba cn c a ib d tf vf to vo)
    = (Ok tt,
       mkTrainState m o se be ba cn (count_from log_probas m 0 vl)
         (accuracy log_probas m vl) ib d tf
         (vf ++ running_rows log_probas epoch (Z.of_nat (List.length vl))
                  m 0 vl) to vo).
Proof.
  intros * Hs. unfold validation, accuracy. run.
  destruct vl as [|t vl'].
  - simpl. now rewrite app_nil_r.
  - apply valid_batches_eq; [|assumption]. simpl List.length. lia.
Qed.

Lemma valid_batches_ok_inv (epoch num_valid : Z) (ts : list Trial) :
  forall (m : ModelState) (o : OptimState) se be ba cn c a ib d tf vf to vo s',
    valid_batches log_probas epoch num_valid ts
      (mkTrainState m o se be ba cn c a ib d tf vf to vo) = (Ok tt, s') ->
    Forall (fun t => scored log_probas m t = true) ts
    /\ (ts = [] \/ num_valid <> 0).
Proof.
  induction ts as [|t ts IH]; intros * H; [split; auto|].
  simpl in H. run. unfold scored.
  destruct (max0_index0 (log_probas m t)) as [p|e] eqn:Ep; run;
    [|discriminate].
  unfold truediv in H.
  destruct (num_valid =? 0) eqn:En;
    [destruct (p =? 0); run; discriminate|].
  apply Z.eqb_neq in En.
  destruct (p =? 0); run; apply IH in H; destruct H as [H _];
    (split; [constructor; [now rewrite Ep | exact H] | now right]).
Qed.

Lemma train_rows_length (epoch num_train : Z) (bs : list TrainBatch) :
  forall i (m : ModelState) (o : OptimState),
    List.length (train_rows sgd_step epoch num_train i m o bs)
    = List.length bs.
Proof.
  induction bs as [|b bs IH]; intros; simpl; [reflexivity|].
  destruct (sgd_step m o b) as [[m' o'] loss]. simpl. now rewrite IH.
Qed.

Lemma running_rows_length (epoch num_valid : Z) (m : ModelState)
    (ts : list Trial) :
  forall c,
    List.length (running_rows log_probas epoch num_valid m c ts)
    = List.length ts.
Proof.
  induction ts as [|t ts IH]; intros; simpl; [reflexivity|].
  now rewrite IH.
Qed.

Lemma running_rows_epoch (epoch num_valid : Z) (m : ModelState)
    (ts : list Trial) :
  forall c,
    Forall (fun row => fst row = epoch)
      (running_rows log_probas epoch num_valid m c ts).
Proof.
  induction ts as [|t ts IH]; intros c; simpl; constructor; auto.
Qed.

Lemma running_rows_last (epoch num_valid : Z) (m : ModelState)
    (ts : list Trial) :
  forall c a d,
    ts <> [] ->
    last (running_rows log_probas epoch num_valid m c ts) d
    = (epoch, acc_from log_probas num_valid m c a ts).
Proof.
  induction ts as [|t ts IH]; intros c a d Hne; [contradiction|].
  destruct ts as [|t' ts]; [reflexivity|].
  change (running_rows log_probas epoch num_valid m c (t :: t' :: ts))
    with ((epoch,
           Qred (inject_Z (if is_correct log_probas m t then c + 1 else c)
                 / inject_Z num_valid))
          :: running_rows log_probas epoch num_valid m
               (if is_correct log_probas m t then c + 1 else c) (t' :: ts)).
  rewrite last_cons_default.
  exact (IH _ a _ ltac:(discriminate)).
Qed.

Lemma running_rows_nth (epoch num_valid : Z) (m : ModelState)
    (ts : list Trial) :
  forall c k,
    (k < List.length ts)%nat ->
    nth_error (running_rows log_probas epoch num_valid m c ts) k
    = Some (epoch,
            Qred (inject_Z (c + count_correct log_probas m (firstn (S k) ts))
                  / inject_Z num_valid)).
Proof.
  assert (Hcons : forall t ts',
            count_correct log_probas m (t :: ts')
            = (if is_correct log_probas m t then 1 else 0)
              + count_correct log_probas m ts').
  { intros t ts'. unfold count_correct. simpl filter.
    destruct (is_correct log_probas m t); simpl List.length; lia. }
  induction ts as [|t ts IH]; intros c k Hk; simpl in Hk; [lia|].
  destruct k as [|k].
  - change (firstn 1 (t :: ts)) with [t]. rewrite Hcons.
    cbn [running_rows nth_error].
    replace (c + ((if is_correct log_probas m t then 1 else 0)
                  + count_correct log_probas m []))
      with (if is_correct log_probas m t then c + 1 else c)
      by (unfold count_correct; simpl;
          destruct (is_correct log_probas m t); lia).
    reflexivity.
  - change (nth_error (running_rows log_probas epoch num_valid m c (t :: ts))
              (S k))
      with (nth_error
              (running_rows log_probas epoch num_valid m
                 (if is_correct log_probas m t then c + 1 else c) ts) k).
    rewrite IH by lia.
    change (firstn (S (S k)) (t :: ts)) with (t :: firstn (S k) ts).
    rewrite Hcons.
    replace (c + ((if is_correct log_probas m t then 1 else 0)
                  + count_correct log_probas m (firstn (S k) ts)))
      with ((if is_correct log_probas m t then c + 1 else c)
            + count_correct log_probas m (firstn (S k) ts))
      by (destruct (is_correct log_probas m t); lia).
    reflexivity.
Qed.

(** The rows the validation loop writes are the first running accuracies,
    however it ends. *)
Lemma valid_batches_rows (epoch num_valid : Z) (ts : list Trial) :
  forall (m : ModelState) (o : OptimState) se be ba cn c a ib d tf vf to vo,
  exists r c' a' rows rest,
    valid_batches log_probas epoch num_valid ts
      (mkTrainState m o se be ba cn c a ib d tf vf to vo)
    = (r, mkTrainState m o se be ba cn c' a' ib d tf (vf ++ rows) to vo)
    /\ running_rows log_probas epoch num_valid m c ts = rows ++ rest.
Proof.
  induction ts as [|t ts IH]; intros; simpl.
  - exists (Ok tt), c, a, [], []. now rewrite app_nil_r.
  - run. unfold is_correct.
    destruct (max0_index0 (log_probas m t)) as [p|e]; run.
    2:{ eexists (Raise e), c, a, [], _. rewrite app_nil_r.
        split; reflexivity. }
    unfold truediv.
    destruct (p =? 0); run.
    + destruct (num_valid =? 0); run.
      { eexists (Raise ZeroDivisionError), (c + 1), a, [], _.
        rewrite app_nil_r. split; reflexivity. }
      destruct (IH m o se be ba cn (c + 1)
                  (Qred (inject_Z (c + 1) / inject_Z num_valid)) ib d tf
                  (vf ++ [(epoch, Qred (inject_Z (c + 1)
                                        / inject_Z num_valid))]) to vo)
        as (r & c' & a' & rows & rest & E & F).
      exists r, c', a',
        ((epoch, Qred (inject_Z (c + 1) / inject_Z num_valid)) :: rows), rest.
      split; [|simpl; now rewrite F].
      etransitivity; [exact E|]. now rewrite <- app_assoc.
    + destruct (num_valid =? 0); run.
      { eexists (Raise ZeroDivisionError), c, a, [], _.
        rewrite app_nil_r. split; reflexivity. }
      destruct (IH m o se be ba cn c
                  (Qred (inject_Z c / inject_Z num_valid)) ib d tf
                  (vf ++ [(epoch, Qred (inject_Z c / inject_Z num_valid))])
                  to vo)
        as (r & c' & a' & rows & rest & E & F).
      exists r, c', a',
        ((epoch, Qred (inject_Z c / inject_Z num_valid)) :: rows), rest.
      split; [|simpl; now rewrite F].
      etransitivity; [exact E|]. now rewrite <- app_assoc.
Qed.

(** ** One epoch *)

Section Loop.

Variable cfg : Config.
Variable g : list string.
Variable tl : list TrainBatch.
Variable vl : list Trial.
Variable nt : Z.

Lemma passes_eq (epoch : Z) (s : TrainState ModelState OptimState) :
  Forall (fun t => scored log_probas
                     (fst (train_net sgd_step (model s) (optimizer s) tl)) t
                   = true) vl ->
  passes sgd_step log_probas tl vl nt (Z.of_nat (List.length vl)) epoch s
  = (Ok tt, after_passes sgd_step log_probas nt tl vl epoch s).
Proof.
  destruct s; intros Hs; unfold passes, after_passes; run.
  rewrite train_batches_eq; run.
  now rewrite validation_eq.
Qed.

Lemma passes_any (nv epoch : Z) (s : TrainState ModelState OptimState) :
  exists r s',
    passes sgd_step log_probas tl vl nt nv epoch s = (r, s')
    /\ passes_frame epoch s s'.
Proof.
  destruct s; unfold passes; run.
  rewrite train_batches_eq; run.
  match goal with
  | |- context [validation _ _ _ _ (mkTrainState ?m ?o ?se ?be ?ba ?cn ?c ?a
                                      ?ib ?d ?tf ?vf ?to ?vo)] =>
      destruct (validation_any vl epoch nv m o se be ba cn c a ib d tf vf
                  to vo) as (r & c' & a' & rows & E & F)
  end.
  rewrite E. destruct r as [[]|e].
  - eexists _, _. split; [reflexivity|].
    unfold passes_frame; simpl. repeat split; eauto.
  - eexists _, _. split; [reflexivity|].
    unfold passes_frame; simpl. repeat split; eauto.
Qed.

(** The two passes complete only when every trial can be scored, and
    then they compute the closed forms. *)
Lemma passes_ok_eq (nv epoch : Z)
    (s s2 : TrainState ModelState OptimState) :
  passes sgd_step log_probas tl vl nt nv epoch s = (Ok tt, s2) ->
  let m1 := fst (train_net sgd_step (model s) (optimizer s) tl) in
  let o1 := snd (train_net sgd_step (model s) (optimizer s) tl) in
  s2 = mkTrainState m1 o1 (start_epoch s) (best_epoch s) (best_valid_acc s)
         (counter s) (count_from log_probas m1 0 vl)
         (acc_from log_probas nv m1 0 0%Q vl) (is_best s) (ckpt_dir s)
         (train_file s
            ++ train_rows sgd_step epoch nt 0 (model s) (optimizer s) tl)
         (valid_file s ++ running_rows log_probas epoch nv m1 0 vl)
         (train_open s) (valid_open s).
Proof.
  destruct s as [m o se be ba cn c a ib d tf vf to vo].
  unfold passes, validation; run. rewrite train_batches_eq; run.
  intros H. pose proof H as H'.
  apply valid_batches_ok_inv in H'. destruct H' as [Hs [Hv|Hn]].
  - subst vl. simpl in H. inversion H; subst. now rewrite app_nil_r.
  - rewrite valid_batches_eq in H by assumption. now inversion H.
Qed.

Lemma epoch_end_eq (epoch : Z) (s : TrainState ModelState OptimState) :
  epoch_end cfg g epoch s
  = let s1 := improvement epoch s in
    if counter s1 >? train_patience cfg then (Ok Return, s1)
    else
      let s2 := if checkpoint_due cfg (is_best s1) epoch
                then checkpointed cfg epoch s1 else s1 in
      (if existsb (String.eqb "log") g then Ok Next
       else Raise (NameError "log"), s2).
Proof.
  unfold epoch_end, check_improvement, checkpoint, lookup_global.
  unfold mbind at 1. unfold modify at 1. unfold mbind at 1. unfold get.
  cbv zeta.
  destruct (counter (improvement epoch s) >? train_patience cfg);
    [reflexivity|].
  destruct (checkpoint_due cfg (is_best (improvement epoch s)) epoch);
    destruct (existsb (String.eqb "log") g); reflexivity.
Qed.

Lemma epoch_body_eq (nv epoch : Z) (s : TrainState ModelState OptimState) :
  epoch_body sgd_step log_probas cfg g tl vl nt nv epoch s
  = match passes sgd_step log_probas tl vl nt nv epoch s with
    | (Ok _, s') => epoch_end cfg g epoch s'
    | (Raise e, s') => (Raise e, s')
    end.
Proof. reflexivity. Qed.

Lemma epoch_end_logs (epoch : Z) (s : TrainState ModelState OptimState) :
  forall r s',
    epoch_end cfg g epoch s = (r, s') ->
    train_file s' = train_file s /\ valid_file s' = valid_file s
    /\ valid_acc s' = valid_acc s.
Proof.
  intros r s'. rewrite epoch_end_eq. cbv zeta. unfold improvement.
  destruct s as [m o se be ba cn c a ib d tf vf to vo]; run.
  destruct (Qgtb a ba); run;
    match goal with
    | |- context [?x >? ?y] => destruct (x >? y)
    end;
    try match goal with
    | |- context [checkpoint_due ?c ?b ?e] => destruct (checkpoint_due c b e)
    end;
    unfold checkpointed; run; intros H; inversion H; subst; simpl; auto.
Qed.

Lemma running_prefix_nth (nv epoch : Z) (m : ModelState)
    (vrows rest : list (Z * Q)) :
  running_rows log_probas epoch nv m 0 vl = vrows ++ rest ->
  forall k, (k < List.length vrows)%nat ->
    nth_error vrows k
    = Some (epoch,
            Qred (inject_Z (count_correct log_probas m (firstn (S k) vl))
                  / inject_Z nv)).
Proof.
  intros Hp k Hk.
  assert (Hlen : (k < List.length vl)%nat).
  { rewrite <- (running_rows_length epoch nv m vl 0), Hp, length_app. lia. }
  rewrite <- (nth_error_app1 vrows rest) by exact Hk.
  rewrite <- Hp, running_rows_nth by exact Hlen.
  reflexivity.
Qed.

Lemma epoch_body_log (nv epoch : Z) (s : TrainState ModelState OptimState) :
  forall r s',
    epoch_body sgd_step log_probas cfg g tl vl nt nv epoch s = (r, s') ->
    log_step sgd_step log_probas tl vl nt nv s epoch s'.
Proof.
  intros r s'. rewrite epoch_body_eq. unfold log_step. cbv zeta.
  destruct (passes sgd_step log_probas tl vl nt nv epoch s)
    as [[[]|e] s1] eqn:E.
  - intros H. apply epoch_end_logs in H. destruct H as (Ht & Hv & Ha).
    pose proof (passes_ok_eq nv epoch s s1 E) as Hs1. cbv zeta in Hs1.
    rewrite Ht, Hv, Ha, Hs1. simpl.
    eexists _, []. split; [reflexivity|]. split; [reflexivity|].
    split; [now rewrite app_nil_r|]. split; [apply running_rows_epoch|].
    split.
    + apply (running_prefix_nth nv epoch _ _ []). now rewrite app_nil_r.
    + intros _. rewrite running_rows_length.
      repeat split. intros Hne. now apply running_rows_last.
  - intros H. inversion H; subst. clear H. revert E.
    unfold passes, validation.
    destruct s as [m o se be ba cn c a ib d tf vf to vo]. run.
    rewrite train_batches_eq. run.
    match goal with
    | |- context [valid_batches _ _ _ _
                    (mkTrainState ?m1 ?o1 ?se ?be ?ba ?cn ?c ?a ?ib ?d ?tf1
                       ?vf ?to ?vo)] =>
        destruct (valid_batches_rows epoch nv vl m1 o1 se be ba cn c a ib d
                    tf1 vf to vo) as (r1 & c' & a' & rows & rest & E1 & F)
    end.
    rewrite E1. intros E. inversion E; subst. simpl.
    exists rows, rest. split; [reflexivity|]. split; [reflexivity|].
    split; [exact F|]. split.
    + pose proof (running_rows_epoch epoch nv
                    (fst (train_net sgd_step m o tl)) vl 0) as Hall.
      rewrite F in Hall. apply Forall_app in Hall. tauto.
    + split; [now apply (running_prefix_nth nv epoch _ _ rest)|].
      discriminate.
Qed.

(** The loop and its trace end in the same state and in the same way. *)
Lemma for_epochs_trace (nv : Z) (es : list Z) :
  forall s : TrainState ModelState OptimState,
    for_epochs sgd_step log_probas cfg g tl vl nt nv es s
    = match epoch_trace sgd_step log_probas cfg g tl vl nt nv es s with
      | [] => (Ok Next, s)
      | e :: tr => let '(_, r, s') := last tr e in (r, s')
      end.
Proof.
  induction es as [|epoch es IH]; intros s; [reflexivity|].
  simpl. unfold mbind at 1.
  destruct (epoch_body sgd_step log_probas cfg g tl vl nt nv epoch s)
    as [[[]|e] s1]; try reflexivity.
  rewrite IH.
  destruct (epoch_trace sgd_step log_probas cfg g tl vl nt nv es s1)
    as [|e1 tr]; [reflexivity|].
  now rewrite last_cons_default.
Qed.

(** A property of every run of the body holds along every trace. *)
Lemma epoch_trace_chain (nv : Z)
    (R : TrainState ModelState OptimState -> Z ->
         TrainState ModelState OptimState -> Prop) :
  (forall epoch s r s',
      epoch_body sgd_step log_probas cfg g tl vl nt nv epoch s = (r, s') ->
      R s epoch s') ->
  forall es s,
    chain R s (epoch_trace sgd_step log_probas cfg g tl vl nt nv es s).
Proof.
  intros HR. induction es as [|epoch es IH]; intros s; simpl; [exact I|].
  destruct (epoch_body sgd_step log_probas cfg g tl vl nt nv epoch s)
    as [r s1] eqn:E.
  pose proof (HR _ _ _ _ E) as H1.
  destruct r as [[]|e]; simpl; auto.
Qed.

Lemma epoch_end_best (epoch : Z) (s : TrainState ModelState OptimState) :
  forall r s', epoch_end cfg g epoch s = (r, s') -> best_step s epoch s'.
Proof.
  intros r s'. rewrite epoch_end_eq. cbv zeta. unfold improvement.
  destruct (Qgtb (valid_acc s) (best_valid_acc s)) eqn:E.
  - apply Qgtb_lt in E.
    destruct s; run.
    destruct (0 >? train_patience cfg);
      [|destruct (checkpoint_due cfg true epoch)];
      intros H; inversion H; subst; unfold best_step, checkpointed; run;
      (split; [now apply Qlt_le_weak | right; auto]).
  - destruct s as [m o se be ba cn c a ib d tf vf to vo]; run.
    destruct (cn + 1 >? train_patience cfg);
      [|destruct (checkpoint_due cfg false epoch)];
      intros H; inversion H; subst; unfold best_step, checkpointed; run;
      (split; [apply Qle_refl | left; auto]).
Qed.

Lemma epoch_body_best (nv epoch : Z) (s : TrainState ModelState OptimState) :
  forall r s',
    epoch_body sgd_step log_probas cfg g tl vl nt nv epoch s = (r, s') ->
    best_step s epoch s'.
Proof.
  intros r s'. rewrite epoch_body_eq.
  destruct (passes_any nv epoch s) as (r1 & s1 & E & F). rewrite E.
  destruct F as (_ & Fbe & Fba & _).
  destruct r1 as [[]|e].
  - intros H. apply epoch_end_best in H.
    unfold best_step in *. rewrite Fba, Fbe in H. exact H.
  - intros H. inversion H; subst. unfold best_step.
    rewrite Fba, Fbe. split; [apply Qle_refl | left; auto].
Qed.

(** An epoch whose accuracy exceeds the best one. *)
Lemma epoch_body_improved (epoch : Z)
    (s : TrainState ModelState OptimState) :
  existsb (String.eqb "log") g = true ->
  0 <= train_patience cfg ->
  Forall (fun t => scored log_probas
                     (net_at_epoch sgd_step 0%nat (model s) (optimizer s) tl) t
                   = true) vl ->
  Qgtb (acc_at_epoch sgd_step log_probas 0%nat (model s) (optimizer s) tl vl)
    (best_valid_acc s) = true ->
  exists s',
    epoch_body sgd_step log_probas cfg g tl vl nt (Z.of_nat (List.length vl))
      epoch s = (Ok Next, s')
    /\ (model s', optimizer s')
       = train_net sgd_step (model s) (optimizer s) tl
    /\ counter s' = 0
    /\ best_epoch s' = epoch
    /\ best_valid_acc s'
       = acc_at_epoch sgd_step log_probas 0%nat (model s) (optimizer s) tl vl
    /\ train_open s' = train_open s /\ valid_open s' = valid_open s.
Proof.
  unfold acc_at_epoch, net_at_epoch. simpl net_after.
  destruct (train_net sgd_step (model s) (optimizer s) tl) as [m1 o1] eqn:En.
  simpl fst. intros Hg Hp Hs Hq.
  rewrite epoch_body_eq, passes_eq by (rewrite En; exact Hs).
  rewrite epoch_end_eq. cbv zeta. rewrite Hg.
  unfold improvement, after_passes. rewrite En.
  destruct s as [m o se be ba cn c a ib d tf vf to vo]; run.
  rewrite Hq; run.
  destruct (0 >? train_patience cfg) eqn:E0; [lia|].
  destruct (checkpoint_due cfg true epoch); unfold checkpointed; run;
    eexists; (split; [reflexivity|]); simpl; repeat split; reflexivity.
Qed.

(** An epoch whose accuracy does not exceed the best one. *)
Lemma epoch_body_stale (epoch : Z) (s : TrainState ModelState OptimState) :
  existsb (String.eqb "log") g = true ->
  Forall (fun t => scored log_probas
                     (net_at_epoch sgd_step 0%nat (model s) (optimizer s) tl) t
                   = true) vl ->
  Qgtb (acc_at_epoch sgd_step log_probas 0%nat (model s) (optimizer s) tl vl)
    (best_valid_acc s) = false ->
  exists s',
    epoch_body sgd_step log_probas cfg g tl vl nt (Z.of_nat (List.length vl))
      epoch s
    = (Ok (if counter s + 1 >? train_patience cfg then Return else Next), s')
    /\ (model s', optimizer s')
       = train_net sgd_step (model s) (optimizer s) tl
    /\ counter s' = counter s + 1
    /\ best_epoch s' = best_epoch s
    /\ best_valid_acc s' = best_valid_acc s
    /\ train_open s' = train_open s /\ valid_open s' = valid_open s.
Proof.
  unfold acc_at_epoch, net_at_epoch. simpl net_after.
  destruct (train_net sgd_step (model s) (optimizer s) tl) as [m1 o1] eqn:En.
  simpl fst. intros Hg Hs Hq.
  rewrite epoch_body_eq, passes_eq by (rewrite En; exact Hs).
  rewrite epoch_end_eq. cbv zeta. rewrite Hg.
  unfold improvement, after_passes. rewrite En.
  destruct s as [m o se be ba cn c a ib d tf vf to vo]; run.
  rewrite Hq; run.
  destruct (cn + 1 >? train_patience cfg) eqn:E0;
    [|destruct (checkpoint_due cfg false epoch)]; unfold checkpointed; run;
    eexists; (split; [reflexivity|]); simpl; repeat split; reflexivity.
Qed.

Lemma net_at_epoch_S (k : nat) (m : ModelState) (o : OptimState) :
  net_at_epoch sgd_step (S k) m o tl
  = net_at_epoch sgd_step k (fst (train_net sgd_step m o tl))
      (snd (train_net sgd_step m o tl)) tl.
Proof.
  unfold net_at_epoch.
  change (net_after sgd_step (S (S k)) m o tl)
    with (let '(m', o') := train_net sgd_step m o tl in
          net_after sgd_step (S k) m' o' tl).
  now destruct (train_net sgd_step m o tl).
Qed.

(** A streak of epochs that do not improve ends in the early stop, at the
    first of them whose counter exceeds the patience. *)
Lemma stale_streak (es : list Z) :
  forall (e : Z) (rest : list Z) (s : TrainState ModelState OptimState),
    existsb (String.eqb "log") g = true ->
    counter s + Z.of_nat (List.length es) = train_patience cfg ->
    (forall k, (k <= List.length es)%nat ->
       Forall (fun t => scored log_probas
                          (net_at_epoch sgd_step k (model s) (optimizer s) tl)
                          t = true) vl
       /\ Qgtb (acc_at_epoch sgd_step log_probas k (model s) (optimizer s)
                  tl vl) (best_valid_acc s) = false) ->
    exists tr s',
      epoch_trace sgd_step log_probas cfg g tl vl nt
        (Z.of_nat (List.length vl)) (es ++ e :: rest) s
      = tr ++ [(e, Ok Return, s')]
      /\ map (fun x => fst (fst x)) tr = es
      /\ counter s' = train_patience cfg + 1
      /\ best_epoch s' = best_epoch s
      /\ best_valid_acc s' = best_valid_acc s
      /\ train_open s' = train_open s /\ valid_open s' = valid_open s.
Proof.
  induction es as [|e1 es IH]; intros e rest s Hg Hc Hk.
  - simpl in Hc.
    destruct (Hk 0%nat (Nat.le_refl _)) as [Hs Hq].
    destruct (epoch_body_stale e s Hg Hs Hq)
      as (s' & E & _ & Hcn & Hbe & Hba & Hto & Hvo).
    replace (counter s + 1 >? train_patience cfg) with true in E
      by (symmetry; apply Z.gtb_lt; lia).
    exists [], s'. simpl. rewrite E. repeat split; auto; lia.
  - simpl List.length in *.
    destruct (Hk 0%nat (Nat.le_0_l _)) as [Hs Hq].
    destruct (epoch_body_stale e1 s Hg Hs Hq)
      as (s1 & E & Hn & Hcn & Hbe & Hba & Hto & Hvo).
    replace (counter s + 1 >? train_patience cfg) with false in E
      by (symmetry; rewrite Z.gtb_ltb; apply Z.ltb_ge; lia).
    assert (Hm : model s1 = fst (train_net sgd_step (model s) (optimizer s) tl)
                 /\ optimizer s1
                    = snd (train_net sgd_step (model s) (optimizer s) tl)).
    { rewrite <- Hn. auto. }
    destruct Hm as [Hm Ho].
    destruct (IH e rest s1 Hg) as (tr & s' & Et & Hmap & H1 & H2 & H3 & H4 & H5).
    + lia.
    + intros k Hle. rewrite Hm, Ho, Hba.
      unfold acc_at_epoch. rewrite <- net_at_epoch_S.
      apply (Hk (S k)). lia.
    + exists ((e1, Ok Next, s1) :: tr), s'.
      simpl. rewrite E, Et. simpl. rewrite Hmap.
      repeat split; congruence.
Qed.

End Loop.

(** ** The best accuracy along a run *)

Lemma chain_best_recorded
    (tr : list (Z * result Control * TrainState ModelState OptimState)) :
  forall s1,
    chain best_step s1 tr ->
    forall pre e r s post,
      tr = pre ++ (e, r, s) :: post ->
      (best_valid_acc s = best_valid_acc s1
       /\ best_epoch s = best_epoch s1)
      \/ (exists e' r' s'',
             In (e', r', s'') (pre ++ [(e, r, s)])
             /\ best_epoch s = e'
             /\ best_valid_acc s = valid_acc s'').
Proof.
  induction tr as [|[[e0 r0] s0] tr IH]; intros s1 Hc pre e r s post Htr.
  - now destruct pre.
  - destruct Hc as [H0 Hc]. destruct pre as [|x pre]; simpl in Htr.
    + inversion Htr; subst. destruct H0 as [_ [[Ha Hb]|[_ [Ha Hb]]]].
      * left; auto.
      * right. exists e, r, s. simpl; auto.
    + inversion Htr; subst.
      destruct (IH s0 Hc pre e r s post eq_refl)
        as [[Ha Hb]|(e' & r' & s'' & Hin & Hb & Ha)].
      * destruct H0 as [_ [[Ha0 Hb0]|[_ [Ha0 Hb0]]]].
        -- left. split; congruence.
        -- right. exists e0, r0, s0. simpl. repeat split; try congruence.
           now left.
      * right. exists e', r', s''. simpl; auto.
Qed.

(** C9. Along every run of [train()], from one epoch to the next the best
    validation accuracy never decreases; it is replaced only by the accuracy
    of an epoch that strictly exceeds it, and then the best epoch becomes
    that epoch; so at every point of the run the pair is either the one the
    run started with or the accuracy and the index of an epoch of the run. *)
Theorem best_accuracy_tracking :
  forall (cfg : Config) (g : list string) (tl : list TrainBatch)
         (vl : list Trial) (s0 : TrainState ModelState OptimState),
    let s1 := snd (train_setup fresh_model fresh_optim cfg s0) in
    let tr := train_trace sgd_step log_probas fresh_model fresh_optim cfg g
                tl vl s0 in
    chain best_step s1 tr
    /\ (forall pre e r s post,
          tr = pre ++ (e, r, s) :: post ->
          (best_valid_acc s1 <= best_valid_acc s)%Q
          /\ ((best_valid_acc s = best_valid_acc s1
               /\ best_epoch s = best_epoch s1)
              \/ (exists e' r' s'',
                     In (e', r', s'') (pre ++ [(e, r, s)])
                     /\ best_epoch s = e'
                     /\ best_valid_acc s = valid_acc s''))).
Proof.
  intros cfg g tl vl s0 s1 tr.
  assert (Hc : chain best_step s1 tr).
  { subst s1 tr. unfold train_trace.
    destruct (train_setup fresh_model fresh_optim cfg s0) as [[[]|e] s1];
      simpl; [|exact I].
    apply epoch_trace_chain. intros epoch s r s'. apply epoch_body_best. }
  clearbody s1 tr. split; [exact Hc|].
  intros pre e r s post Htr. split.
  - clear - Hc Htr. revert s1 Hc pre Htr.
    induction tr as [|[[e0 r0] x0] tr IH]; intros s1 Hc pre Htr.
    + now destruct pre.
    + destruct Hc as [[Hle _] Hc]. destruct pre as [|x pre]; simpl in Htr.
      * now inversion Htr; subst.
      * inversion Htr; subst. eapply Qle_trans; [exact Hle|].
        now apply (IH x0 Hc pre).
  - now apply (chain_best_recorded tr s1 Hc pre e r s post).
Qed.

(** ** [train()] as a whole *)

Lemma train_eq (cfg : Config) (g : list string) (tl : list TrainBatch)
    (vl : list Trial) (s0 : TrainState ModelState OptimState) :
  train sgd_step log_probas fresh_model fresh_optim cfg g tl vl s0
  = match train_setup fresh_model fresh_optim cfg s0 with
    | (Ok _, s1) =>
        match for_epochs sgd_step log_probas cfg g tl vl
                (Z.of_nat (List.length tl)) (Z.of_nat (List.length vl))
                (range0 (epochs cfg)) s1 with
        | (Ok Return, s') => (Ok Return, s')
        | (Ok Next, s') =>
            (Ok Next,
             set_valid_file (valid_file s') false
               (set_train_file (train_file s') false s'))
        | (Raise e, s') => (Raise e, s')
        end
    | (Raise e, s1) => (Raise e, s1)
    end.
Proof.
  unfold train. unfold mbind at 1.
  destruct (train_setup fresh_model fresh_optim cfg s0) as [[[]|e] s1];
    [|reflexivity].
  unfold mbind at 1.
  destruct (for_epochs sgd_step log_probas cfg g tl vl
              (Z.of_nat (List.length tl)) (Z.of_nat (List.length vl))
              (range0 (epochs cfg)) s1) as [[[]|e] s']; reflexivity.
Qed.

(** After the set-up the counter is zero and both logs are open and
    empty, whatever they held before. *)
Lemma train_setup_ok (cfg : Config)
    (s0 s1 : TrainState ModelState OptimState) :
  train_setup fresh_model fresh_optim cfg s0 = (Ok tt, s1) ->
  counter s1 = 0
  /\ train_file s1 = [] /\ valid_file s1 = []
  /\ train_open s1 = true /\ valid_open s1 = true
  /\ ckpt_dir s1 = ckpt_dir s0.
Proof.
  unfold train_setup, load_or_init.
  destruct s0 as [m o se be ba cn c a ib d tf vf to vo].
  destruct (resume cfg); run.
  - destruct (load_checkpoint (self_model_dir cfg) false d) as [ck|e]; run;
      intros H; inversion H; subst; simpl; auto 10.
  - intros H; inversion H; subst; simpl; auto 10.
Qed.

(** C3, as the code has it. At the end of an epoch the loop returns
    exactly when the counter of epochs without improvement exceeds the
    patience (line 142), in every namespace. So, when the summary at the end
    of an epoch can be printed and no trial raises: if the validation
    accuracy improves at epoch 0 and never afterwards, the loop returns in
    the epoch of index [train_patience + 1], and [train_patience + 2]
    epochs have run by then (5 for a patience of 3, not 4). *)
Theorem early_stop_when_counter_exceeds_patience :
  forall cfg : Config,
    (forall (g : list string) (epoch : Z)
            (s : TrainState ModelState OptimState),
        fst (epoch_end cfg g epoch s) = Ok Return
        <-> train_patience cfg < counter (improvement epoch s))
    /\ (forall (g : list string) (tl : list TrainBatch) (vl : list Trial)
               (s0 s1 : TrainState ModelState OptimState),
          existsb (String.eqb "log") g = true ->
          train_setup fresh_model fresh_optim cfg s0 = (Ok tt, s1) ->
          0 <= train_patience cfg ->
          train_patience cfg + 2 <= epochs cfg ->
          (forall e, (e <= Z.to_nat (train_patience cfg) + 1)%nat ->
             Forall (fun t => scored log_probas
                                (net_at_epoch sgd_step e (model s1)
                                   (optimizer s1) tl) t = true) vl) ->
          (best_valid_acc s1
           < acc_at_epoch sgd_step log_probas 0 (model s1) (optimizer s1)
               tl vl)%Q ->
          (forall e, (1 <= e <= Z.to_nat (train_patience cfg) + 1)%nat ->
             (acc_at_epoch sgd_step log_probas e (model s1) (optimizer s1)
                tl vl
              <= acc_at_epoch sgd_step log_probas 0 (model s1)
                   (optimizer s1) tl vl)%Q) ->
          exists s',
            train sgd_step log_probas fresh_model fresh_optim cfg g tl vl s0
            = (Ok Return, s')
            /\ map (fun x => fst (fst x))
                 (train_trace sgd_step log_probas fresh_model fresh_optim
                    cfg g tl vl s0)
               = range0 (train_patience cfg + 2)
            /\ counter s' = train_patience cfg + 1
            /\ best_epoch s' = 0
            /\ best_valid_acc s'
               = acc_at_epoch sgd_step log_probas 0 (model s1)
                   (optimizer s1) tl vl
            /\ train_open s' = true /\ valid_open s' = true).
Proof.
  intros cfg. split.
  { intros g epoch s. rewrite epoch_end_eq. cbv zeta.
    destruct (counter (improvement epoch s) >? train_patience cfg) eqn:E.
    - apply Z.gtb_lt in E. simpl. tauto.
    - rewrite Z.gtb_ltb in E. apply Z.ltb_ge in E. cbn [fst].
      split; [|lia].
      destruct (existsb (String.eqb "log") g); intros H; discriminate H. }
  intros g tl vl s0 s1 Hg Hset Hp Hn Hs Himp Hstale.
  destruct (train_setup_ok cfg s0 s1 Hset) as (Hc1 & _ & _ & Hto & Hvo & _).
  set (nt := Z.of_nat (List.length tl)).
  destruct (epoch_body_improved cfg g tl vl nt 0 s1 Hg Hp
              (Hs 0%nat (Nat.le_0_l _)) (Qlt_gtb _ _ Himp))
    as (s2 & E0 & Hn2 & Hc2 & Hbe2 & Hba2 & Hto2 & Hvo2).
  assert (Hm : model s2
               = fst (train_net sgd_step (model s1) (optimizer s1) tl)
               /\ optimizer s2
                  = snd (train_net sgd_step (model s1) (optimizer s1) tl)).
  { rewrite <- Hn2. auto. }
  destruct Hm as [Hm Ho].
  set (es := map Z.of_nat (seq 1 (Z.to_nat (train_patience cfg)))).
  set (rest := map Z.of_nat
                 (seq (Z.to_nat (train_patience cfg) + 2)
                    (Z.to_nat (epochs cfg) - Z.to_nat (train_patience cfg)
                     - 2))).
  assert (Hlen : List.length es = Z.to_nat (train_patience cfg)).
  { subst es. now rewrite length_map, length_seq. }
  destruct (stale_streak cfg g tl vl nt es (train_patience cfg + 1) rest s2 Hg)
    as (tr & s' & Et & Hmap & H1 & H2 & H3 & H4 & H5).
  { rewrite Hc2, Hlen. lia. }
  { intros k Hk. rewrite Hm, Ho, Hba2, <- net_at_epoch_S. split.
    - apply Hs. lia.
    - apply Qle_gtb. unfold acc_at_epoch at 1. rewrite <- net_at_epoch_S.
      apply (Hstale (S k)). lia. }
  assert (Htrace :
    epoch_trace sgd_step log_probas cfg g tl vl nt
      (Z.of_nat (List.length vl)) (range0 (epochs cfg)) s1
    = (0, Ok Next, s2) :: tr ++ [(train_patience cfg + 1, Ok Return, s')]).
  { rewrite (range0_split (train_patience cfg) (epochs cfg)) by assumption.
    fold es rest. simpl. rewrite E0. now rewrite Et. }
  exists s'. split; [|split].
  - rewrite train_eq, Hset, for_epochs_trace. fold nt. rewrite Htrace.
    rewrite last_last. reflexivity.
  - unfold train_trace. rewrite Hset. fold nt. rewrite Htrace.
    rewrite range0_stop by assumption. fold es. simpl.
    rewrite map_app, Hmap. reflexivity.
  - repeat split; congruence.
Qed.

(** ** The summary at the end of an epoch *)

Lemma log_unbound : existsb (String.eqb "log") trainer_globals = false.
Proof. reflexivity. Qed.

(** With the names of [trainer.py] an epoch never falls through to the
    next one: it raises, or it returns on the early stop. *)
Lemma epoch_body_no_next (cfg : Config) (tl : list TrainBatch)
    (vl : list Trial) (nt nv epoch : Z)
    (s : TrainState ModelState OptimState) :
  fst (epoch_body sgd_step log_probas cfg trainer_globals tl vl nt nv epoch s)
  <> Ok Next.
Proof.
  rewrite epoch_body_eq.
  destruct (passes sgd_step log_probas tl vl nt nv epoch s) as [[[]|e] s1];
    [|discriminate].
  rewrite epoch_end_eq, log_unbound. cbv zeta.
  destruct (counter (improvement epoch s1) >? train_patience cfg);
    discriminate.
Qed.

Lemma epoch_trace_one (cfg : Config) (tl : list TrainBatch)
    (vl : list Trial) (nt nv : Z) (es : list Z)
    (s : TrainState ModelState OptimState) :
  (List.length (epoch_trace sgd_step log_probas cfg trainer_globals tl vl
                  nt nv es s) <= 1)%nat.
Proof.
  destruct es as [|epoch es]; simpl; [lia|].
  pose proof (epoch_body_no_next cfg tl vl nt nv epoch s) as H.
  destruct (epoch_body sgd_step log_probas cfg trainer_globals tl vl nt nv
              epoch s) as [[[]|e] s1]; simpl in *; try lia.
  now contradiction H.
Qed.

(** No call of [train()] whose loop starts an epoch reaches a second epoch
    or the two [close()] statements. *)
Lemma train_never_closes (cfg : Config) (tl : list TrainBatch)
    (vl : list Trial) (s0 : TrainState ModelState OptimState) :
  0 < epochs cfg ->
  fst (train sgd_step log_probas fresh_model fresh_optim cfg trainer_globals
         tl vl s0) <> Ok Next
  /\ (List.length (train_trace sgd_step log_probas fresh_model fresh_optim
                     cfg trainer_globals tl vl s0) <= 1)%nat.
Proof.
  intros Hn. split.
  - rewrite train_eq.
    destruct (train_setup fresh_model fresh_optim cfg s0) as [[[]|e] s1];
      [|discriminate].
    unfold range0.
    destruct (Z.to_nat (epochs cfg)) as [|n] eqn:En; [lia|].
    rewrite <- cons_seq, map_cons. simpl for_epochs. unfold mbind at 1.
    pose proof (epoch_body_no_next cfg tl vl (Z.of_nat (List.length tl))
                  (Z.of_nat (List.length vl)) 0 s1) as H.
    destruct (epoch_body sgd_step log_probas cfg trainer_globals tl vl
                (Z.of_nat (List.length tl)) (Z.of_nat (List.length vl))
                0 s1) as [[[]|e] s2]; simpl in *;
      try discriminate.
    now contradiction H.
  - unfold train_trace.
    destruct (train_setup fresh_model fresh_optim cfg s0) as [[[]|e] s1];
      [apply epoch_trace_one | simpl; lia].
Qed.

(** C5, as the code has it. When the two passes of the first epoch
    complete, [train()] ends in that epoch: with [NameError] for [log] at
    the summary when the early stop does not fire there, with the early
    return when it does (the counter after the first epoch is already above
    the patience).  Either way one epoch has run, no second one starts, and
    the log files are still open: the [close()] statements are not
    reached. *)
Theorem first_summary_raises_name_error :
  forall (cfg : Config) (tl : list TrainBatch) (vl : list Trial)
         (s0 s1 s2 : TrainState ModelState OptimState),
    train_setup fresh_model fresh_optim cfg s0 = (Ok tt, s1) ->
    0 < epochs cfg ->
    passes sgd_step log_probas tl vl (Z.of_nat (List.length tl))
      (Z.of_nat (List.length vl)) 0 s1 = (Ok tt, s2) ->
    let run := train sgd_step log_probas fresh_model fresh_optim cfg
                 trainer_globals tl vl s0 in
    (counter (improvement 0 s2) <= train_patience cfg ->
     fst run = Raise (NameError "log"))
    /\ (train_patience cfg < counter (improvement 0 s2) ->
        fst run = Ok Return)
    /\ fst run <> Ok Next
    /\ List.length (train_trace sgd_step log_probas fresh_model fresh_optim
                      cfg trainer_globals tl vl s0) = 1%nat
    /\ train_open (snd run) = true /\ valid_open (snd run) = true.
Proof.
  intros cfg tl vl s0 s1 s2 Hset Hn Hp run.
  destruct (train_setup_ok cfg s0 s1 Hset) as (_ & _ & _ & Hto & Hvo & _).
  destruct (passes_any tl vl (Z.of_nat (List.length tl))
              (Z.of_nat (List.length vl)) 0 s1) as (r & s2' & E & F).
  rewrite Hp in E. inversion E; subst r s2'. clear E.
  destruct F as (_ & _ & _ & _ & _ & _ & Fto & Fvo & _).
  assert (Hr : range0 (epochs cfg)
               = 0 :: map Z.of_nat (seq 1 (Z.to_nat (epochs cfg) - 1))).
  { unfold range0.
    replace (Z.to_nat (epochs cfg)) with (S (Z.to_nat (epochs cfg) - 1))
      at 1 by lia.
    now rewrite <- cons_seq, map_cons. }
  assert (Hb :
    epoch_body sgd_step log_probas cfg trainer_globals tl vl
      (Z.of_nat (List.length tl)) (Z.of_nat (List.length vl)) 0 s1
    = epoch_end cfg trainer_globals 0 s2).
  { now rewrite epoch_body_eq, Hp. }
  assert (Hopen : train_open (improvement 0 s2) = true
                  /\ valid_open (improvement 0 s2) = true).
  { unfold improvement.
    destruct (Qgtb (valid_acc s2) (best_valid_acc s2));
      destruct s2; run; split; congruence. }
  assert (Hrun :
    run = let s3 := improvement 0 s2 in
          if counter s3 >? train_patience cfg then (Ok Return, s3)
          else (Raise (NameError "log"),
                if checkpoint_due cfg (is_best s3) 0
                then checkpointed cfg 0 s3 else s3)).
  { subst run. rewrite train_eq, Hset, Hr. simpl for_epochs.
    unfold mbind at 1. rewrite Hb, epoch_end_eq, log_unbound. cbv zeta.
    destruct (counter (improvement 0 s2) >? train_patience cfg);
      reflexivity. }
  assert (Htr :
    List.length (train_trace sgd_step log_probas fresh_model fresh_optim
                   cfg trainer_globals tl vl s0) = 1%nat).
  { unfold train_trace. rewrite Hset, Hr. simpl epoch_trace.
    rewrite Hb, epoch_end_eq, log_unbound. cbv zeta.
    destruct (counter (improvement 0 s2) >? train_patience cfg);
      reflexivity. }
  rewrite Hrun. cbv zeta. clear Hrun. clearbody run.
  destruct (counter (improvement 0 s2) >? train_patience cfg) eqn:Ec.
  - apply Z.gtb_lt in Ec. simpl.
    repeat split; try tauto; try discriminate; try lia.
  - rewrite Z.gtb_ltb in Ec. apply Z.ltb_ge in Ec. simpl.
    destruct (checkpoint_due cfg (is_best (improvement 0 s2)) 0);
      unfold checkpointed; run;
      repeat split; try tauto; try discriminate; try lia.
Qed.

(** ** The log files *)

(** C10, as the code has it. [train()] opens both logs for writing, which
    empties them; from then on rows are only added at the end. Every row an
    epoch adds to [valid.csv] carries that epoch and the running accuracy:
    row [k] holds the number of correct trials among the first [k + 1],
    divided by [num_valid]. An epoch whose two passes complete adds one such
    row per validation trial (not one per epoch), the last of which carries
    the final validation accuracy of the epoch; an epoch that raises in its
    validation pass adds the first of them. *)
Theorem validation_log_rows :
  forall (cfg : Config) (g : list string) (tl : list TrainBatch)
         (vl : list Trial) (s0 : TrainState ModelState OptimState),
    let setup := train_setup fresh_model fresh_optim cfg s0 in
    let tr := train_trace sgd_step log_probas fresh_model fresh_optim cfg g
                tl vl s0 in
    (fst setup = Ok tt ->
     train_file (snd setup) = [] /\ valid_file (snd setup) = [])
    /\ chain (log_step sgd_step log_probas tl vl
                (Z.of_nat (List.length tl)) (Z.of_nat (List.length vl)))
         (snd setup) tr.
Proof.
  intros cfg g tl vl s0 setup tr. split.
  - subst setup.
    destruct (train_setup fresh_model fresh_optim cfg s0) as [[[]|e] s1] eqn:E;
      [|discriminate].
    intros _. apply train_setup_ok in E. simpl. tauto.
  - subst setup tr. unfold train_trace.
    destruct (train_setup fresh_model fresh_optim cfg s0) as [[[]|e] s1];
      simpl; [|exact I].
    apply epoch_trace_chain. intros epoch s r s'. apply epoch_body_log.
Qed.

(** ** The evaluation pass *)

Lemma count_from_eq (m : ModelState) (ts : list Trial) :
  forall c, count_from log_probas m c ts = c + count_correct log_probas m ts.
Proof.
  unfold count_correct.
  induction ts as [|t ts IH]; intros c; simpl; [lia|].
  rewrite IH. destruct (is_correct log_probas m t); simpl List.length; lia.
Qed.

Lemma acc_from_nonempty (n : Z) (m : ModelState) (ts : list Trial) :
  forall c a,
    ts <> [] ->
    acc_from log_probas n m c a ts
    = Qred (inject_Z (count_from log_probas m c ts) / inject_Z n).
Proof.
  induction ts as [|t ts IH]; intros c a Hne; [contradiction|].
  destruct ts as [|t' ts]; [reflexivity|].
  change (acc_from log_probas n m c a (t :: t' :: ts))
    with (acc_from log_probas n m
            (if is_correct log_probas m t then c + 1 else c)
            (Qred (inject_Z (if is_correct log_probas m t then c + 1 else c)
                   / inject_Z n)) (t' :: ts)).
  now rewrite IH by discriminate.
Qed.

Lemma count_correct_perm (m : ModelState) (ts ts' : list Trial) :
  Permutation ts ts' ->
  count_correct log_probas m ts = count_correct log_probas m ts'.
Proof.
  unfold count_correct. intros H. f_equal.
  induction H as [|t l l' H IH|t t' l|l l' l'' H1 IH1 H2 IH2]; simpl.
  - reflexivity.
  - destruct (is_correct log_probas m t); simpl; now rewrite IH.
  - destruct (is_correct log_probas m t), (is_correct log_probas m t');
      reflexivity.
  - congruence.
Qed.

Lemma count_correct_bounds (m : ModelState) (ts : list Trial) :
  0 <= count_correct log_probas m ts <= Z.of_nat (List.length ts).
Proof.
  unfold count_correct.
  pose proof (filter_length_le (is_correct log_probas m) ts). lia.
Qed.

Lemma test_batches_loop_eq (m : ModelState) (ts : list Trial) :
  forall c,
    Forall (fun t => scored log_probas m t = true) ts ->
    test_batches_loop log_probas m c ts
    = Ok (count_from log_probas m c ts).
Proof.
  induction ts as [|t ts IH]; intros c Hs; [reflexivity|].
  inversion Hs as [|? ? Ht Hts]; subst. simpl.
  unfold scored in Ht. unfold is_correct.
  destruct (max0_index0 (log_probas m t)) as [p|e]; [|discriminate].
  simpl. now rewrite IH.
Qed.

Lemma is_correct_iff (m : ModelState) (t : Trial) :
  is_correct log_probas m t = true
  <-> max0_index0 (log_probas m t) = Ok 0.
Proof.
  unfold is_correct.
  destruct (max0_index0 (log_probas m t)) as [p|e].
  - rewrite Z.eqb_eq. split; [congruence | now inversion 1].
  - split; discriminate.
Qed.

(** C1. On trials that can all be scored, a trial counts as correct exactly
    when the index of its greatest score is 0; the validation pass ends with
    [correct] the number of such trials and [valid_acc] that number divided
    by the number of trials; [test()] reports the same count, the number of
    trials and the percentage; and a reordering of the trials changes none
    of these. *)
Theorem evaluation_accuracy :
  forall (m : ModelState) (ts ts' : list Trial),
    Forall (fun t => scored log_probas m t = true) ts ->
    Permutation ts ts' ->
    ts <> [] ->
    let n := Z.of_nat (List.length ts) in
    let c := count_correct log_probas m ts in
    0 <= c <= n
    /\ (forall t, In t ts ->
          (is_correct log_probas m t = true
           <-> max0_index0 (log_probas m t) = Ok 0))
    /\ (forall l, l = ts \/ l = ts' ->
        forall epoch (o : OptimState) se be ba cn c0 a0 ib d tf vf to vo,
        exists rows,
          validation log_probas l epoch (Z.of_nat (List.length l))
            (mkTrainState m o se be ba cn c0 a0 ib d tf vf to vo)
          = (Ok tt,
             mkTrainState m o se be ba cn c
               (Qred (inject_Z c / inject_Z n)) ib d tf (vf ++ rows) to vo))
    /\ (forall l, l = ts \/ l = ts' ->
        forall cfg (d : Dir ModelState OptimState) ck,
          load_checkpoint (self_model_dir cfg) (best cfg) d = Ok ck ->
          ck_model_state ck = m ->
          test log_probas cfg d (mkTestLoader l (Z.of_nat (List.length l)))
          = Ok (c, n, Qred (inject_Z (100 * c) / inject_Z n))).
Proof.
  intros m ts ts' Hs Hp Hne n c.
  assert (Hl : forall l, l = ts \/ l = ts' ->
             Forall (fun t => scored log_probas m t = true) l
             /\ l <> [] /\ Z.of_nat (List.length l) = n
             /\ count_correct log_probas m l = c).
  { intros l [->| ->]; [repeat split; auto|].
    repeat split.
    - eapply Permutation_Forall; eassumption.
    - intros ->. apply Permutation_sym, Permutation_nil in Hp. contradiction.
    - subst n. f_equal. symmetry. now apply Permutation_length.
    - subst c. symmetry. now apply count_correct_perm. }
  split; [apply count_correct_bounds|].
  split; [intros t _; apply is_correct_iff|].
  split.
  - intros l Hor *. destruct (Hl l Hor) as (Hsl & Hnl & Hlen & Hc).
    eexists. rewrite validation_eq by assumption.
    unfold accuracy. rewrite acc_from_nonempty by assumption.
    rewrite count_from_eq, Hc, Hlen. reflexivity.
  - intros l Hor cfg d ck Hload Hm. destruct (Hl l Hor) as (Hsl & Hnl & Hlen & Hc).
    unfold test. rewrite Hload. simpl. rewrite Hm.
    rewrite test_batches_loop_eq by assumption. simpl.
    rewrite count_from_eq, Hc, Hlen. simpl.
    unfold truediv.
    destruct (n =? 0) eqn:E; [|reflexivity].
    apply Z.eqb_eq in E. subst n. destruct ts; [contradiction|].
    simpl List.length in E. lia.
Qed.

(** C6, as the code has it. Without trials the validation pass leaves
    [valid_acc] at 0, writes nothing and raises nothing; [test()] divides by
    the number of trials all the same and raises [ZeroDivisionError]. *)
Theorem zero_trials :
  forall (cfg : Config) (d : Dir ModelState OptimState)
         (ck : Ckpt ModelState OptimState) (epoch : Z)
         (s : TrainState ModelState OptimState),
    load_checkpoint (self_model_dir cfg) (best cfg) d = Ok ck ->
    validation log_probas [] epoch (Z.of_nat (List.length (@nil Trial))) s
    = (Ok tt, set_valid_acc 0%Q (set_correct 0 s))
    /\ valid_acc (snd (validation log_probas [] epoch 0 s)) = 0%Q
    /\ valid_file (snd (validation log_probas [] epoch 0 s)) = valid_file s
    /\ test log_probas cfg d (mkTestLoader [] 0) = Raise ZeroDivisionError.
Proof.
  intros cfg d ck epoch s Hload. repeat split.
  unfold test. now rewrite Hload.
Qed.

(** ** A missing checkpoint *)

Lemma torch_load_missing (path : string) (d : Dir ModelState OptimState) :
  ~ In path (map fst d) ->
  torch_load path d = Raise (FileNotFoundError path).
Proof.
  induction d as [|[p c] d IH]; intros H; simpl; [reflexivity|].
  destruct (String.eqb p path) eqn:E.
  - apply String.eqb_eq in E. subst. exfalso. apply H. now left.
  - apply IH. intros Hin. apply H. now right.
Qed.

(** ** The checkpoint cadence and the range of the loop *)

(** Inside the loop the third disjunct of line 146 never holds: the epochs
    are below [epochs]. *)
Lemma final_epoch_clause_dead (cfg : Config) (b : bool) (epoch : Z) :
  In epoch (range0 (epochs cfg)) ->
  checkpoint_due cfg b epoch = b || (epoch mod 5 =? 0).
Proof.
  unfold range0, checkpoint_due. intros H.
  apply in_map_iff in H. destruct H as (k & <- & Hk).
  apply in_seq in Hk.
  replace (Z.of_nat k =? epochs cfg) with false
    by (symmetry; apply Z.eqb_neq; lia).
  now rewrite orb_false_r.
Qed.

(** The epochs of a trace are the first ones of the list the loop ranges
    over, whatever the state the loop starts in. *)
Lemma epoch_trace_prefix (cfg : Config) (g : list string)
    (tl : list TrainBatch) (vl : list Trial) (nt nv : Z) (es : list Z) :
  forall s : TrainState ModelState OptimState,
    exists rest,
      es = map (fun x => fst (fst x))
             (epoch_trace sgd_step log_probas cfg g tl vl nt nv es s)
           ++ rest.
Proof.
  induction es as [|epoch es IH]; intros s; simpl; [now exists []|].
  destruct (epoch_body sgd_step log_probas cfg g tl vl nt nv epoch s)
    as [[[]|e] s1]; simpl.
  - destruct (IH s1) as [rest Hr]. exists rest. now rewrite <- Hr.
  - now exists es.
  - now exists es.
Qed.

(** A run that starts an epoch starts with epoch 0, also when it resumes
    from a checkpoint. *)
Lemma train_trace_starts_at_zero (cfg : Config) (g : list string)
    (tl : list TrainBatch) (vl : list Trial)
    (s0 : TrainState ModelState OptimState) :
  forall x tr,
    train_trace sgd_step log_probas fresh_model fresh_optim cfg g tl vl s0
    = x :: tr ->
    fst (fst x) = 0.
Proof.
  intros x tr. unfold train_trace.
  destruct (train_setup fresh_model fresh_optim cfg s0) as [[[]|e] s1];
    [|discriminate].
  destruct (epoch_trace_prefix cfg g tl vl (Z.of_nat (List.length tl))
              (Z.of_nat (List.length vl)) (range0 (epochs cfg)) s1)
    as [rest Hr].
  intros H. rewrite H in Hr. simpl in Hr.
  unfold range0 in Hr.
  destruct (Z.to_nat (epochs cfg)); [discriminate|].
  rewrite <- cons_seq, map_cons in Hr. now inversion Hr.
Qed.

End Facts.

(** ** The most recent checkpoint *)

Lemma insert_by_len_perm (x : string) (l : list string) :
  Permutation (insert_by_len x l) (x :: l).
Proof.
  induction l as [|y l IH]; simpl; [reflexivity|].
  destruct (String.length y <? String.length x)%nat; [|reflexivity].
  rewrite IH. apply perm_swap.
Qed.

Lemma sorted_by_len_perm (l : list string) :
  Permutation (sorted_by_len l) l.
Proof.
  induction l as [|x l IH]; simpl; [reflexivity|].
  rewrite insert_by_len_perm. now constructor.
Qed.

Lemma insert_by_len_sorted (x : string) (l : list string) :
  StronglySorted by_len l -> StronglySorted by_len (insert_by_len x l).
Proof.
  induction l as [|y l IH]; intros H; simpl.
  - repeat constructor.
  - inversion H as [|? ? Hs Hf]; subst.
    destruct (String.length y <? String.length x)%nat eqn:E.
    + apply Nat.ltb_lt in E. constructor; [now apply IH|].
      eapply Permutation_Forall;
        [apply Permutation_sym, insert_by_len_perm|].
      constructor; [unfold by_len; lia | assumption].
    + apply Nat.ltb_ge in E. constructor; [assumption|].
      constructor; [exact E|].
      eapply Forall_impl; [|exact Hf]. unfold by_len. intros; lia.
Qed.

Lemma sorted_by_len_sorted (l : list string) :
  StronglySorted by_len (sorted_by_len l).
Proof.
  induction l as [|x l IH]; simpl; [constructor|].
  now apply insert_by_len_sorted.
Qed.

Lemma last_item_longest (l : list string) (x : string) :
  StronglySorted by_len l ->
  last_item l = Ok x ->
  In x l /\ Forall (fun y => by_len y x) l.
Proof.
  induction l as [|y l IH]; intros Hs Hl; [discriminate|].
  inversion Hs as [|? ? Hs' Hf]; subst.
  destruct l as [|z l].
  - inversion Hl; subst. split; [now left|].
    constructor; [unfold by_len; lia | constructor].
  - destruct (IH Hs' Hl) as [Hin Hall]. split; [now right|].
    constructor; [|assumption].
    rewrite Forall_forall in Hf. now apply Hf.
Qed.

(** [load_checkpoint] picks a file whose name is among the longest; among
    names of one length the listing order decides. *)
Lemma most_recent_is_longest (l : list string) (x : string) :
  last_item (sorted_by_len l) = Ok x ->
  In x l /\ Forall (fun y => by_len y x) l.
Proof.
  intros H.
  destruct (last_item_longest _ _ (sorted_by_len_sorted l) H) as [Hin Hall].
  split.
  - eapply Permutation_in; [apply sorted_by_len_perm | exact Hin].
  - eapply Permutation_Forall; [apply sorted_by_len_perm | exact Hall].
Qed.

Lemma most_recent_unique_longest (l : list string) (x : string) :
  In x l ->
  (forall y, In y l -> y <> x -> (String.length y < String.length x)%nat) ->
  last_item (sorted_by_len l) = Ok x.
Proof.
  intros Hin Hlt.
  destruct (last_item_ok (sorted_by_len l)) as (z & Hz & _).
  { intros H. apply (proj1 (sorted_by_len_nil l)) in H. subst.
    contradiction. }
  destruct (most_recent_is_longest l z Hz) as [Hzin Hall].
  destruct (string_dec z x) as [->|Hne]; [exact Hz|].
  pose proof (Hlt z Hzin Hne) as H1.
  rewrite Forall_forall in Hall. pose proof (Hall x Hin) as H2.
  unfold by_len in H2. lia.
Qed.

Lemma torch_load_in {MS OS : Type} (d : Dir MS OS) (p : string)
    (c : Ckpt MS OS) :
  NoDup (map fst d) -> In (p, c) d -> torch_load p d = Ok c.
Proof.
  induction d as [|[q c'] d IH]; intros Hnd Hin; [contradiction|].
  simpl in *. inversion Hnd as [|? ? Hq Hnd']; subst.
  destruct Hin as [H|H].
  - inversion H; subst. now rewrite String.eqb_refl.
  - destruct (String.eqb q p) eqn:E.
    + apply String.eqb_eq in E. subst. exfalso. apply Hq.
      change p with (fst (p, c)). now apply in_map.
    + now apply IH.
Qed.

(** After the saves for the epochs 3, 1, 10, 2 the record of epoch 10 is
    loaded, in whatever order the directory lists its four files: its name
    is the only longest one. *)
Lemma saved_3_1_10_2_any_listing (d : Dir nat unit) :
  Permutation (Toy.saved [3; 1; 10; 2]) d ->
  load_checkpoint "models/1" false d = Ok (Toy.ckpt 10).
Proof.
  intros Hp. unfold load_checkpoint.
  assert (Hin : In ("models/1/model_ckpt_10.tar"%string, Toy.ckpt 10) d).
  { eapply Permutation_in; [exact Hp|]. vm_compute. tauto. }
  assert (Hall : forall y, In y (glob_ckpt "models/1" d) ->
                   In y (map fst (Toy.saved [3; 1; 10; 2]))).
  { intros y Hy. unfold glob_ckpt in Hy. apply filter_In in Hy.
    destruct Hy as [Hy _].
    eapply Permutation_in; [|exact Hy].
    apply Permutation_map, Permutation_sym, Hp. }
  rewrite (most_recent_unique_longest (glob_ckpt "models/1" d)
             "models/1/model_ckpt_10.tar").
  - simpl. apply torch_load_in; [|exact Hin].
    eapply Permutation_NoDup; [apply Permutation_map, Hp|].
    vm_compute. repeat constructor; simpl; intuition discriminate.
  - unfold glob_ckpt. apply filter_In. split; [|reflexivity].
    change "models/1/model_ckpt_10.tar"%string
      with (fst ("models/1/model_ckpt_10.tar"%string, Toy.ckpt 10)).
    now apply in_map.
  - intros y Hy Hne. apply Hall in Hy. vm_compute in Hy.
    destruct Hy as [<-|[<-|[<-|[<-|[]]]]]; simpl; try lia.
    now contradiction Hne.
Qed.

(** ** Runs of the small instance *)

(** C2. With the files of the epochs 6 and 1 listed in that order,
    [load_checkpoint(best=False)] loads the record of epoch 1: the two names
    have one length and the sort by length leaves the last listed one last.
    Listed the other way round, the record of epoch 6 is loaded. *)
Theorem load_checkpoint_equal_length_names :
  load_checkpoint "models/1" false (Toy.saved [6; 1]) = Ok (Toy.ckpt 1)
  /\ load_checkpoint "models/1" false (Toy.saved [1; 6]) = Ok (Toy.ckpt 6).
Proof. split; reflexivity. Qed.

(** C4. A run of 12 epochs that is best at epoch 0 only, in a namespace
    that binds [log] so that all 12 epochs run: the checkpoints written are
    [best_model.tar] (epoch 0) and those of the epochs 5 and 10; the last
    epoch, of index 11, writes none, because line 146 compares the epoch
    with [epochs] and not with [epochs - 1]. *)
Theorem final_epoch_not_checkpointed :
  let cfg := Toy.config 12 20 false false in
  let s0 := Toy.boot [] [] [] in
  let run := Toy.train cfg Toy.globals_with_log [1%Q] [Toy.hit; Toy.miss] s0 in
  fst run = Ok Next
  /\ Toy.epochs_of
      (Toy.train_trace cfg Toy.globals_with_log [1%Q] [Toy.hit; Toy.miss] s0)
    = range0 12
  /\ Toy.paths (snd run)
    = ["models/1/best_model.tar"; "models/1/model_ckpt_6.tar";
       "models/1/model_ckpt_11.tar"]%string
  /\ checkpoint_due cfg false 11 = false
  /\ checkpoint_due cfg false 12 = true.
Proof. cbv zeta. repeat split; vm_compute; reflexivity. Qed.

(** C8. A run that resumes from the checkpoint written at the end of
    epoch 5 (its [epoch] field is 6) with a budget of 12 epochs: the
    restored [start_epoch] is 6, and the loop still starts with epoch 0.
    With the names of [trainer.py] it ends there, its row in [valid.csv]
    carrying epoch 0; in a namespace that binds [log] it runs all the
    epochs from 0 to 11. *)
Theorem resume_restarts_at_epoch_zero :
  let cfg := Toy.config 12 20 true false in
  let s0 := Toy.boot (Toy.saved [6]) [] [] in
  start_epoch (snd (train_setup 0%nat tt cfg s0)) = 6
  /\ Toy.epochs_of (Toy.train_trace cfg trainer_globals [1%Q] [Toy.hit] s0)
    = [0]
  /\ valid_file (snd (Toy.train cfg trainer_globals [1%Q] [Toy.hit] s0))
    = [(0, 1%Q)]
  /\ Toy.epochs_of
      (Toy.train_trace cfg Toy.globals_with_log [1%Q] [Toy.hit] s0)
    = range0 12.
Proof. cbv zeta. repeat split; vm_compute; reflexivity. Qed.

(** C3 fails as stated: with a patience of 3 and an accuracy that improves
    at epoch 0 only, the early stop comes in the epoch of index 4, after
    five epochs, when [log] is bound; with the names of [trainer.py] the
    run ends after one epoch. In neither case after four. *)
Lemma early_stop_not_after_four_epochs :
  let cfg := Toy.config 12 3 false false in
  let s0 := Toy.boot [] [] [] in
  let vl := [Toy.hit; Toy.miss] in
  fst (Toy.train cfg Toy.globals_with_log [1%Q] vl s0) = Ok Return
  /\ Toy.epochs_of (Toy.train_trace cfg Toy.globals_with_log [1%Q] vl s0)
    = [0; 1; 2; 3; 4]
  /\ map (fun x => valid_acc (snd x))
      (Toy.train_trace cfg Toy.globals_with_log [1%Q] vl s0)
    = [1 # 2; 1 # 2; 1 # 2; 1 # 2; 1 # 2]%Q
  /\ Toy.epochs_of (Toy.train_trace cfg trainer_globals [1%Q] vl s0) = [0].
Proof. cbv zeta. repeat split; vm_compute; reflexivity. Qed.

(** C5 fails as stated: with a patience of 0 and a first epoch that gets
    no trial right, the two passes of the first epoch complete and
    [train()] returns on the early stop; the summary is not reached and no
    [NameError] is raised. *)
Lemma early_stop_precedes_summary :
  let cfg := Toy.config 12 0 false false in
  let s0 := Toy.boot [] [] [] in
  let s1 := snd (train_setup 0%nat tt cfg s0) in
  fst (passes Toy.sgd_step Toy.log_probas [1%Q] [Toy.miss] 1 1 0 s1) = Ok tt
  /\ fst (Toy.train cfg trainer_globals [1%Q] [Toy.miss] s0) = Ok Return.
Proof. cbv zeta. split; vm_compute; reflexivity. Qed.

(** C6 fails as stated: [test()] on a loader without trials raises
    [ZeroDivisionError]. *)
Lemma test_without_trials_divides_by_zero :
  Toy.test (Toy.config 12 3 false false) (Toy.saved [6]) (mkTestLoader [] 0)
  = Raise ZeroDivisionError.
Proof. reflexivity. Qed.

(** C7 fails as stated: with an empty checkpoint directory the error is
    [IndexError], from [load_checkpoint], from [test()] and from a resuming
    [train()]. *)
Lemma missing_checkpoint_is_index_error :
  load_checkpoint "models/1" false (Toy.saved []) = Raise IndexError
  /\ Toy.test (Toy.config 12 3 false false) (Toy.saved [])
      (mkTestLoader [Toy.hit] 1) = Raise IndexError
  /\ fst (Toy.train (Toy.config 12 3 true false) trainer_globals [1%Q]
           [Toy.hit] (Toy.boot (Toy.saved []) [] []))
    = Raise IndexError.
Proof. repeat split; reflexivity. Qed.

(** C10 fails as stated: a run over two validation trials, started on a
    [valid.csv] that holds a row, leaves two rows for epoch 0 in it, and
    the row it held is gone. *)
Lemma valid_log_two_rows_and_truncated :
  valid_file
    (snd (Toy.train (Toy.config 12 3 false false) trainer_globals [1%Q]
            [Toy.hit; Toy.hit] (Toy.boot [] [] [(7, 1 # 2)])))
  = [(0, 1 # 2); (0, 1%Q)].
Proof. vm_compute. reflexivity. Qed.

(** ** Instances of the theorems *)

(** Seven of ten trials right: the accuracy is 7/10 and [test()] reports
    70 percent, also with the trials in reverse order. *)
Lemma evaluation_accuracy_witness :
  (exists rows,
     validation Toy.log_probas (rev Toy.ten_trials) 0 10
       (Toy.boot [] [] [])
     = (Ok tt,
        mkTrainState 0%nat tt 0 0 0%Q 0 7 (7 # 10)%Q false [] [] rows
          false false))
  /\ Toy.test (Toy.config 12 3 false false) (Toy.saved [6])
      (mkTestLoader Toy.ten_trials 10)
    = Ok (7, 10, 70%Q).
Proof.
  destruct (evaluation_accuracy (OptimState := unit) Toy.log_probas 0%nat
              Toy.ten_trials
              (rev Toy.ten_trials))
    as (_ & _ & Hv & Ht).
  - repeat constructor.
  - apply Permutation_rev.
  - discriminate.
  - split.
    + destruct (Hv (rev Toy.ten_trials) (or_intror eq_refl) 0 tt 0 0 0%Q 0 0
                  0%Q false [] [] [] false false) as [rows Hr].
      exists rows. exact Hr.
    + exact (Ht Toy.ten_trials (or_introl eq_refl)
               (Toy.config 12 3 false false) (Toy.saved [6]) (Toy.ckpt 6)
               eq_refl eq_refl).
Defined.

(** A patience of 3 and an accuracy of 1/2 in every epoch: the early stop
    comes in the epoch of index 4. *)
Lemma early_stop_witness :
  exists s',
    Toy.train (Toy.config 12 3 false false) Toy.globals_with_log [1%Q]
      [Toy.hit; Toy.miss] (Toy.boot [] [] [])
    = (Ok Return, s')
    /\ Toy.epochs_of
        (Toy.train_trace (Toy.config 12 3 false false) Toy.globals_with_log
           [1%Q] [Toy.hit; Toy.miss] (Toy.boot [] [] []))
      = [0; 1; 2; 3; 4]
    /\ counter s' = 4.
Proof.
  destruct (early_stop_when_counter_exceeds_patience Toy.sgd_step
              Toy.log_probas 0%nat tt (Toy.config 12 3 false false))
    as [_ Hstop].
  destruct (Hstop Toy.globals_with_log [1%Q] [Toy.hit; Toy.miss]
              (Toy.boot [] [] [])
              (snd (train_setup 0%nat tt (Toy.config 12 3 false false)
                      (Toy.boot [] [] []))))
    as (s' & Hrun & Htr & Hc & _).
  - reflexivity.
  - reflexivity.
  - simpl. lia.
  - simpl. lia.
  - intros e _. repeat constructor.
  - reflexivity.
  - intros e _. vm_compute. discriminate.
  - exists s'. split; [exact Hrun|]. split; [exact Htr | exact Hc].
Defined.

(** A patience of 3: the first epoch ends with [NameError] at the
    summary, and it is the only epoch. *)
Lemma first_summary_witness :
  fst (Toy.train (Toy.config 12 3 false false) trainer_globals [1%Q]
         [Toy.hit; Toy.miss] (Toy.boot [] [] []))
  = Raise (NameError "log")
  /\ List.length
      (Toy.train_trace (Toy.config 12 3 false false) trainer_globals [1%Q]
         [Toy.hit; Toy.miss] (Toy.boot [] [] [])) = 1%nat.
Proof.
  destruct (first_summary_raises_name_error Toy.sgd_step Toy.log_probas
              0%nat tt (Toy.config 12 3 false false) [1%Q]
              [Toy.hit; Toy.miss] (Toy.boot [] [] [])
              (snd (train_setup 0%nat tt (Toy.config 12 3 false false)
                      (Toy.boot [] [] [])))
              (snd (passes Toy.sgd_step Toy.log_probas [1%Q]
                      [Toy.hit; Toy.miss] 1 2 0
                      (snd (train_setup 0%nat tt
                              (Toy.config 12 3 false false)
                              (Toy.boot [] [] []))))))
    as (Hraise & _ & _ & Hlen & _).
  - reflexivity.
  - simpl. lia.
  - reflexivity.
  - split; [|exact Hlen].
    apply Hraise. vm_compute. discriminate.
Defined.

(** No trials: the validation pass yields 0, [test()] raises. *)
Lemma zero_trials_witness :
  valid_acc (snd (validation Toy.log_probas [] 3 0 (Toy.boot [] [] [])))
  = 0%Q
  /\ Toy.test (Toy.config 12 3 false false) (Toy.saved [6])
      (mkTestLoader [] 0)
    = Raise ZeroDivisionError.
Proof.
  destruct (zero_trials Toy.log_probas (Toy.config 12 3 false false)
              (Toy.saved [6]) (Toy.ckpt 6) 3 (Toy.boot [] [] []) eq_refl)
    as (_ & Hv & _ & Ht).
  split; [exact Hv | exact Ht].
Defined.

(** A run of six epochs whose accuracy is 1/2, 1/2, 1, 1, 1, 1: the best
    accuracy and the best epoch after each of them. *)
Example best_accuracy_run :
  map (fun x => (fst (fst x), valid_acc (snd x), best_valid_acc (snd x),
                 best_epoch (snd x)))
    (Toy.train_trace (Toy.config 6 3 false false) Toy.globals_with_log
       [1%Q] [Toy.hit; Toy.hit_after 2] (Toy.boot [] [] []))
  = [(0, (1 # 2)%Q, (1 # 2)%Q, 0); (1, (1 # 2)%Q, (1 # 2)%Q, 0);
     (2, 1%Q, 1%Q, 2); (3, 1%Q, 1%Q, 2); (4, 1%Q, 1%Q, 2);
     (5, 1%Q, 1%Q, 2)].
Proof. vm_compute. reflexivity. Qed.

Lemma best_accuracy_witness :
  chain best_step
    (snd (train_setup 0%nat tt (Toy.config 6 3 false false)
            (Toy.boot [] [] [])))
    (Toy.train_trace (Toy.config 6 3 false false) Toy.globals_with_log
       [1%Q] [Toy.hit; Toy.hit_after 2] (Toy.boot [] [] [])).
Proof.
  exact (proj1 (best_accuracy_tracking Toy.sgd_step Toy.log_probas 0%nat tt
                  (Toy.config 6 3 false false) Toy.globals_with_log [1%Q]
                  [Toy.hit; Toy.hit_after 2] (Toy.boot [] [] []))).
Defined.

Lemma validation_log_witness :
  chain (log_step Toy.sgd_step Toy.log_probas [1%Q] [Toy.hit; Toy.miss] 1 2)
    (snd (train_setup 0%nat tt (Toy.config 12 3 false false)
            (Toy.boot [] [] [(7, 1 # 2)])))
    (Toy.train_trace (Toy.config 12 3 false false) Toy.globals_with_log
       [1%Q] [Toy.hit; Toy.miss] (Toy.boot [] [] [(7, 1 # 2)])).
Proof.
  exact (proj2 (validation_log_rows Toy.sgd_step Toy.log_probas 0%nat tt
                  (Toy.config 12 3 false false) Toy.globals_with_log [1%Q]
                  [Toy.hit; Toy.miss] (Toy.boot [] [] [(7, 1 # 2)]))).
Defined.

(** * Further properties *)

(** ** File names *)

Lemma string_length_append (a b : string) :
  String.length (a ++ b) = (String.length a + String.length b)%nat.
Proof. induction a as [|c a IH]; simpl; [reflexivity | now rewrite IH]. Qed.

Lemma append_inv_head (a x y : string) :
  (a ++ x)%string = (a ++ y)%string -> x = y.
Proof.
  induction a as [|c a IH]; simpl; intros H; [exact H|].
  inversion H. now apply IH.
Qed.

Lemma append_inv_tail (x : string) :
  forall y b : string, (x ++ b)%string = (y ++ b)%string -> x = y.
Proof.
  induction x as [|c x IH]; intros y b H.
  - destruct y as [|d y]; [reflexivity|]. exfalso.
    apply (f_equal String.length) in H.
    rewrite !string_length_append in H. simpl in H. lia.
  - destruct y as [|d y].
    + exfalso. apply (f_equal String.length) in H.
      rewrite !string_length_append in H. simpl in H. lia.
    + simpl in H. inversion H. f_equal. now apply (IH y b).
Qed.

Lemma prefix_append (a b c : string) :
  String.prefix (a ++ b) (a ++ c) = String.prefix b c.
Proof.
  induction a as [|x a IH]; simpl; [reflexivity|].
  destruct (ascii_dec x x) as [_|H]; [exact IH | contradiction].
Qed.

(** The decimal notation tells the integers apart. *)
Lemma str_of_int_inj (a b : Z) : str_of_int a = str_of_int b -> a = b.
Proof.
  unfold str_of_int. intros H.
  assert (Hn : forall z, Z.to_int z <> Decimal.Pos Decimal.Nil
                         /\ Z.to_int z <> Decimal.Neg Decimal.Nil).
  { intros [|p|p]; simpl; split; try discriminate;
      intros E; inversion E as [E'];
      exact (DecimalPos.Unsigned.to_uint_nonnil p E'). }
  apply DecimalZ.to_int_inj.
  assert (E : Some (Z.to_int a) = Some (Z.to_int b)).
  { rewrite <- (NilZero.isi (Z.to_int a)) by apply Hn.
    rewrite <- (NilZero.isi (Z.to_int b)) by apply Hn.
    now rewrite H. }
  now inversion E.
Qed.

Lemma ckpt_file_inj (md : string) (e e' : Z) :
  ckpt_file md e = ckpt_file md e' -> e = e'.
Proof.
  unfold ckpt_file, path_join. intros H.
  apply append_inv_head in H. apply (append_inv_head "/") in H.
  apply (append_inv_head "model_ckpt_") in H.
  apply append_inv_tail in H. now apply str_of_int_inj.
Qed.

Lemma ckpt_file_not_best (md : string) (e : Z) :
  ckpt_file md e <> best_file md.
Proof.
  unfold ckpt_file, best_file, path_join. intros H.
  apply append_inv_head in H. discriminate H.
Qed.

Lemma ckpt_file_globbed (md : string) (e : Z) :
  String.prefix (md ++ "/model_ckpt_") (ckpt_file md e) = true.
Proof.
  unfold ckpt_file, path_join. rewrite prefix_append. simpl.
  now destruct (str_of_int e ++ ".tar")%string.
Qed.

Lemma best_file_not_globbed (md : string) :
  String.prefix (md ++ "/model_ckpt_") (best_file md) = false.
Proof. unfold best_file, path_join. rewrite prefix_append. reflexivity. Qed.

(** ** Saving and loading *)

Section StoreFacts.

Context {ModelState OptimState : Type}.

Implicit Types (d : Dir ModelState OptimState)
               (state : Ckpt ModelState OptimState).

Lemma torch_load_save_same (path : string) state d :
  torch_load path (torch_save path state d) = Ok state.
Proof.
  induction d as [|[p c] d IH]; simpl.
  - now rewrite String.eqb_refl.
  - destruct (String.eqb p path) eqn:E; simpl; rewrite E; [reflexivity|].
    exact IH.
Qed.

Lemma torch_load_save_other (path q : string) state d :
  q <> path ->
  torch_load q (torch_save path state d) = torch_load q d.
Proof.
  intros Hne. induction d as [|[p c] d IH]; simpl.
  - destruct (String.eqb path q) eqn:E; [|reflexivity].
    apply String.eqb_eq in E. now subst.
  - destruct (String.eqb p path) eqn:E; simpl.
    + apply String.eqb_eq in E. subst p.
      destruct (String.eqb path q) eqn:E'; [|reflexivity].
      apply String.eqb_eq in E'. now subst.
    + now rewrite IH.
Qed.

(** The files after a save: those before, and the saved one if it is
    new. *)
Lemma torch_save_keys (path : string) state d :
  map fst (torch_save path state d)
  = if existsb (String.eqb path) (map fst d) then map fst d
    else map fst d ++ [path].
Proof.
  induction d as [|[p c] d IH]; simpl; [reflexivity|].
  rewrite (String.eqb_sym path p).
  destruct (String.eqb p path) eqn:E; simpl; [reflexivity|].
  rewrite IH. now destruct (existsb (String.eqb path) (map fst d)).
Qed.

Lemma glob_ckpt_save (md path : string) state d :
  glob_ckpt md (torch_save path state d)
  = if existsb (String.eqb path) (map fst d) then glob_ckpt md d
    else if String.prefix (md ++ "/model_ckpt_") path
         then glob_ckpt md d ++ [path]
         else glob_ckpt md d.
Proof.
  unfold glob_ckpt. rewrite torch_save_keys.
  destruct (existsb (String.eqb path) (map fst d)); [reflexivity|].
  rewrite filter_app. simpl.
  destruct (String.prefix (md ++ "/model_ckpt_") path);
    [reflexivity | now rewrite app_nil_r].
Qed.

Lemma torch_load_listed (path : string) d :
  In path (map fst d) -> exists c, torch_load path d = Ok c.
Proof.
  induction d as [|[p c] d IH]; simpl; [contradiction|].
  intros [H|H].
  - subst. rewrite String.eqb_refl. now exists c.
  - destruct (String.eqb p path); [now exists c | now apply IH].
Qed.

Lemma glob_ckpt_save_best (md : string) state d :
  glob_ckpt md (torch_save (best_file md) state d) = glob_ckpt md d.
Proof.
  rewrite glob_ckpt_save, best_file_not_globbed.
  now destruct (existsb (String.eqb (best_file md)) (map fst d)).
Qed.

(** X1. A save touches one file only. Saving the state of an epoch as a
    periodic checkpoint leaves the periodic records of all other epochs and
    the best record as they were (the decimal tag tells the epochs apart);
    saving it as the best one leaves every periodic record, and the list of
    periodic files, as they were. *)
Theorem save_checkpoint_keeps_other_records :
  forall (md : string) state d,
    (forall e, e <> ck_epoch state ->
       torch_load (ckpt_file md e) (save_checkpoint md state false d)
       = torch_load (ckpt_file md e) d)
    /\ torch_load (best_file md) (save_checkpoint md state false d)
       = torch_load (best_file md) d
    /\ (forall e,
          torch_load (ckpt_file md e) (save_checkpoint md state true d)
          = torch_load (ckpt_file md e) d)
    /\ glob_ckpt md (save_checkpoint md state true d) = glob_ckpt md d.
Proof.
  intros md state d. unfold save_checkpoint.
  change (path_join md ("model_ckpt_" ++ str_of_int (ck_epoch state)
                        ++ ".tar"))
    with (ckpt_file md (ck_epoch state)).
  change (path_join md "best_model.tar") with (best_file md).
  repeat split.
  - intros e He. apply torch_load_save_other.
    intros H. apply ckpt_file_inj in H. contradiction.
  - apply torch_load_save_other. intros H. symmetry in H.
    exact (ckpt_file_not_best _ _ H).
  - intros e. apply torch_load_save_other. apply ckpt_file_not_best.
  - apply glob_ckpt_save_best.
Qed.

(** X2. In a directory whose name [glob] takes literally, the best record
    comes back from a save only when a periodic file exists:
    [load_checkpoint(best=True)] after [save_checkpoint(state, True)]
    returns the saved state when the directory holds some [model_ckpt_*]
    file, and raises [IndexError] when it holds none, the saved
    [best_model.tar] notwithstanding. *)
Theorem best_round_trip :
  forall (md : string) state d,
    plain_dir md = true ->
    load_checkpoint md true (save_checkpoint md state true d)
    = match glob_ckpt md d with
      | [] => Raise IndexError
      | _ :: _ => Ok state
      end.
Proof.
  intros md state d _.
  unfold load_checkpoint, save_checkpoint.
  change (path_join md "best_model.tar") with (best_file md).
  rewrite glob_ckpt_save_best.
  destruct (glob_ckpt md d) as [|x l] eqn:E; [reflexivity|].
  destruct (last_item_ok (sorted_by_len (x :: l))) as (z & Hz & _).
  { intros H. apply (proj1 (sorted_by_len_nil _)) in H. discriminate. }
  rewrite Hz. simpl. apply torch_load_save_same.
Qed.

(** X3. In a directory whose name [glob] takes literally, a periodic
    checkpoint comes back from a save when its name is the longest:
    [load_checkpoint(best=False)] after [save_checkpoint(state, False)]
    returns the saved state if every other [model_ckpt_*] file of the
    directory has a strictly shorter name. *)
Theorem periodic_round_trip :
  forall (md : string) state d,
    plain_dir md = true ->
    (forall q, In q (glob_ckpt md d) ->
       q <> ckpt_file md (ck_epoch state) ->
       (String.length q < String.length (ckpt_file md (ck_epoch state)))%nat) ->
    load_checkpoint md false (save_checkpoint md state false d) = Ok state.
Proof.
  intros md state d _ Hlt. unfold load_checkpoint, save_checkpoint.
  change (path_join md ("model_ckpt_" ++ str_of_int (ck_epoch state)
                        ++ ".tar"))
    with (ckpt_file md (ck_epoch state)).
  set (path := ckpt_file md (ck_epoch state)) in *.
  rewrite (most_recent_unique_longest _ path).
  - simpl. apply torch_load_save_same.
  - rewrite glob_ckpt_save. subst path. rewrite ckpt_file_globbed.
    destruct (existsb (String.eqb (ckpt_file md (ck_epoch state)))
                (map fst d)) eqn:E.
    + apply existsb_exists in E. destruct E as (x & Hx & Ex).
      apply String.eqb_eq in Ex. subst x.
      unfold glob_ckpt. apply filter_In. split; [exact Hx|].
      apply ckpt_file_globbed.
    + apply in_or_app. right. now left.
  - intros y Hy Hne. apply Hlt; [|exact Hne].
    rewrite glob_ckpt_save in Hy.
    destruct (existsb (String.eqb path) (map fst d)); [exact Hy|].
    subst path. rewrite ckpt_file_globbed in Hy.
    apply in_app_or in Hy. destruct Hy as [Hy|[Hy|[]]]; [exact Hy|].
    now contradiction Hne.
Qed.

(** X4. In a directory whose name [glob] takes literally,
    [load_checkpoint(best=False)] succeeds exactly when the directory holds
    a [model_ckpt_*] file; the record it returns is that of such a file,
    and no [model_ckpt_*] file has a longer name. *)
Theorem load_most_recent_characterised :
  forall (md : string) d,
    plain_dir md = true ->
    (glob_ckpt md d = [] <-> load_checkpoint md false d = Raise IndexError)
    /\ (glob_ckpt md d <> [] ->
        exists ck, load_checkpoint md false d = Ok ck)
    /\ (forall ck,
          load_checkpoint md false d = Ok ck ->
          exists path,
            In path (glob_ckpt md d)
            /\ torch_load path d = Ok ck
            /\ Forall (fun q => (String.length q <= String.length path)%nat)
                 (glob_ckpt md d)).
Proof.
  intros md d _.
  assert (Hsome : glob_ckpt md d <> [] ->
            exists path ck,
              last_item (sorted_by_len (glob_ckpt md d)) = Ok path
              /\ In path (glob_ckpt md d)
              /\ Forall (fun q => by_len q path) (glob_ckpt md d)
              /\ torch_load path d = Ok ck).
  { intros Hne.
    destruct (last_item_ok (sorted_by_len (glob_ckpt md d)))
      as (path & Hp & _).
    { intros H. exact (Hne (proj1 (sorted_by_len_nil _) H)). }
    destruct (most_recent_is_longest _ _ Hp) as [Hin Hall].
    destruct (torch_load_listed path d) as [ck Hck].
    { unfold glob_ckpt in Hin. apply filter_In in Hin. tauto. }
    exists path, ck. auto. }
  split; [|split].
  - split.
    + intros H. unfold load_checkpoint. now rewrite H.
    + intros H. destruct (glob_ckpt md d) as [|x l] eqn:E; [reflexivity|].
      destruct Hsome as (path & ck & Hp & _ & _ & Hck); [discriminate|].
      unfold load_checkpoint in H. rewrite E, Hp in H. simpl in H.
      rewrite Hck in H. discriminate.
  - intros Hne. destruct (Hsome Hne) as (path & ck & Hp & _ & _ & Hck).
    exists ck. unfold load_checkpoint. rewrite Hp. simpl. exact Hck.
  - intros ck H.
    destruct (glob_ckpt md d) as [|x l] eqn:E;
      [unfold load_checkpoint in H; rewrite E in H; discriminate|].
    destruct Hsome as (path & ck' & Hp & Hin & Hall & Hck); [discriminate|].
    unfold load_checkpoint in H. rewrite E, Hp in H. simpl in H.
    exists path. repeat split; [exact Hin | exact H | exact Hall].
Qed.

End StoreFacts.

(** ** A missing checkpoint, once more *)

Section MissingCheckpoint.

Context {ModelState OptimState TrainBatch Trial : Type}.
Variable sgd_step :
  ModelState -> OptimState -> TrainBatch -> ModelState * OptimState * Q.
Variable log_probas : ModelState -> Trial -> list (list Q).
Variable fresh_model : ModelState.
Variable fresh_optim : OptimState.

Lemma load_most_recent_ok (md : string) (d : Dir ModelState OptimState) :
  glob_ckpt md d <> [] -> exists ck, load_checkpoint md false d = Ok ck.
Proof.
  intros Hne.
  destruct (last_item_ok (sorted_by_len (glob_ckpt md d))) as (path & Hp & _).
  { intros H. exact (Hne (proj1 (sorted_by_len_nil _) H)). }
  destruct (most_recent_is_longest _ _ Hp) as [Hin _].
  destruct (torch_load_listed path d) as [ck Hck].
  { unfold glob_ckpt in Hin. apply filter_In in Hin. tauto. }
  exists ck. unfold load_checkpoint. rewrite Hp. exact Hck.
Qed.

(** C7, as the code has it, for a checkpoint directory whose name [glob]
    takes literally. A request for the most recent record, which is what
    [test()] makes with [best] off and what a resuming [train()] always
    makes, fails with [IndexError] when the directory holds no
    [model_ckpt_*] file; [train()] then ends with that error before it
    opens the log files. A request for the best record when
    [best_model.tar] is missing fails with the [FileNotFoundError] of
    [torch.load] when some [model_ckpt_*] file exists, and with
    [IndexError] when none does; [test()] with [best] on ends with the same
    error. A resuming [train()] loads its checkpoint whenever a
    [model_ckpt_*] file exists, whether [best_model.tar] is there or
    not. *)
Theorem missing_checkpoint_errors :
  forall (cfg : Config) (d : Dir ModelState OptimState),
    plain_dir (self_model_dir cfg) = true ->
    (glob_ckpt (self_model_dir cfg) d = [] ->
     load_checkpoint (self_model_dir cfg) false d = Raise IndexError
     /\ (best cfg = false ->
         forall loader, test log_probas cfg d loader = Raise IndexError)
     /\ (resume cfg = true ->
         forall g tl vl (s0 : TrainState ModelState OptimState),
           ckpt_dir s0 = d ->
           let run := train sgd_step log_probas fresh_model fresh_optim cfg
                        g tl vl s0 in
           fst run = Raise IndexError
           /\ train_file (snd run) = train_file s0
           /\ valid_file (snd run) = valid_file s0
           /\ train_open (snd run) = train_open s0
           /\ valid_open (snd run) = valid_open s0))
    /\ (~ In (best_file (self_model_dir cfg)) (map fst d) ->
        load_checkpoint (self_model_dir cfg) true d
        = Raise (match glob_ckpt (self_model_dir cfg) d with
                 | [] => IndexError
                 | _ :: _ => FileNotFoundError (best_file (self_model_dir cfg))
                 end)
        /\ (best cfg = true ->
            forall loader,
              test log_probas cfg d loader
              = Raise (match glob_ckpt (self_model_dir cfg) d with
                       | [] => IndexError
                       | _ :: _ =>
                           FileNotFoundError (best_file (self_model_dir cfg))
                       end)))
    /\ (resume cfg = true ->
        glob_ckpt (self_model_dir cfg) d <> [] ->
        forall s0 : TrainState ModelState OptimState,
          ckpt_dir s0 = d ->
          fst (train_setup fresh_model fresh_optim cfg s0) = Ok tt).
Proof.
  intros cfg d _. split; [|split].
  - intros Hg.
    assert (Hl : load_checkpoint (self_model_dir cfg) false d
                 = Raise IndexError).
    { unfold load_checkpoint. now rewrite Hg. }
    split; [exact Hl|]. split.
    + intros Hb loader. unfold test. now rewrite Hb, Hl.
    + intros Hr g tl vl s0 Hd run. subst run.
      rewrite train_eq. unfold train_setup, load_or_init. rewrite Hr.
      destruct s0 as [m o se be ba cn c a ib d0 tf vf to vo].
      simpl in Hd. subst d0. run. rewrite Hl. run. auto.
  - intros Hin.
    assert (Hl : load_checkpoint (self_model_dir cfg) true d
                 = Raise (match glob_ckpt (self_model_dir cfg) d with
                          | [] => IndexError
                          | _ :: _ =>
                              FileNotFoundError
                                (best_file (self_model_dir cfg))
                          end)).
    { unfold load_checkpoint.
      destruct (glob_ckpt (self_model_dir cfg) d) as [|x l] eqn:E;
        [reflexivity|].
      destruct (last_item_ok (sorted_by_len (x :: l))) as (z & Hz & _).
      { intros H. apply (proj1 (sorted_by_len_nil _)) in H. discriminate. }
      rewrite Hz. simpl. now apply torch_load_missing. }
    split; [exact Hl|].
    intros Hb loader. unfold test. now rewrite Hb, Hl.
  - intros Hr Hg s0 Hd.
    destruct (load_most_recent_ok (self_model_dir cfg) d Hg) as [ck Hck].
    unfold train_setup, load_or_init. rewrite Hr.
    destruct s0 as [m o se be ba cn c a ib d0 tf vf to vo].
    simpl in Hd. subst d0. run. rewrite Hck. reflexivity.
Qed.

End MissingCheckpoint.

(** ** More on the runs of [train()] *)

Section RunFacts.

Context {ModelState OptimState TrainBatch Trial : Type}.
Variable sgd_step :
  ModelState -> OptimState -> TrainBatch -> ModelState * OptimState * Q.
Variable log_probas : ModelState -> Trial -> list (list Q).
Variable fresh_model : ModelState.
Variable fresh_optim : OptimState.

Implicit Types (s : TrainState ModelState OptimState).

Lemma train_rows_steps (epoch num_train : Z) (bs : list TrainBatch) :
  forall i (m : ModelState) (o : OptimState),
    map fst (train_rows sgd_step epoch num_train i m o bs)
    = map (fun k => epoch * num_train + i + Z.of_nat k)
        (seq 0 (List.length bs)).
Proof.
  induction bs as [|b bs IH]; intros i m o; [reflexivity|].
  simpl. destruct (sgd_step m o b) as [[m' o'] loss]. simpl.
  f_equal; [lia|].
  rewrite IH, <- seq_shift, map_map.
  apply map_ext. intros k. lia.
Qed.

(** What an epoch does to [train.csv] and to the network, however it
    ends: the training pass always runs to its end. *)
Lemma epoch_body_training (cfg : Config) (g : list string)
    (tl : list TrainBatch) (vl : list Trial) (nt nv epoch : Z) s :
  forall r s',
    epoch_body sgd_step log_probas cfg g tl vl nt nv epoch s = (r, s') ->
    train_file s'
    = train_file s
      ++ train_rows sgd_step epoch nt 0 (model s) (optimizer s) tl
    /\ (model s', optimizer s')
       = train_net sgd_step (model s) (optimizer s) tl.
Proof.
  intros r s'. rewrite epoch_body_eq. unfold passes.
  destruct s as [m o se be ba cn c a ib d tf vf to vo]. run.
  rewrite train_batches_eq. run.
  match goal with
  | |- context [validation _ _ _ _ (mkTrainState ?m1 ?o1 ?se ?be ?ba ?cn ?c
                                      ?a ?ib ?d ?tf1 ?vf ?to ?vo)] =>
      destruct (validation_any log_probas vl epoch nv m1 o1 se be ba cn c a
                  ib d tf1 vf to vo) as (r1 & c' & a' & rows & E & F)
  end.
  rewrite E. destruct r1 as [[]|e].
  - rewrite epoch_end_eq. cbv zeta. unfold improvement. run.
    destruct (Qgtb a' ba); run;
      match goal with
      | |- context [?x >? ?y] => destruct (x >? y)
      end;
      try match goal with
      | |- context [checkpoint_due ?c ?b ?e] =>
          destruct (checkpoint_due c b e)
      end;
      unfold checkpointed; run; intros H; inversion H; subst; simpl;
      (split; [reflexivity | now destruct (train_net sgd_step m o tl)]).
  - intros H. inversion H; subst. simpl.
    split; [reflexivity | now destruct (train_net sgd_step m o tl)].
Qed.

(** X5. Every epoch that starts writes one row per training batch to
    [train.csv], after the rows already there, and numbers them
    [epoch * len(train_loader) + i] for [i = 0, 1, ...], whether the
    validation pass that follows completes or raises. *)
Theorem train_log_steps :
  forall (cfg : Config) (g : list string) (tl : list TrainBatch)
         (vl : list Trial) (s0 : TrainState ModelState OptimState),
    chain
      (fun s epoch s' =>
         exists rows,
           train_file s' = train_file s ++ rows
           /\ map fst rows
              = map (fun k => epoch * Z.of_nat (List.length tl) + Z.of_nat k)
                  (seq 0 (List.length tl)))
      (snd (train_setup fresh_model fresh_optim cfg s0))
      (train_trace sgd_step log_probas fresh_model fresh_optim cfg g tl vl
         s0).
Proof.
  intros cfg g tl vl s0. unfold train_trace.
  destruct (train_setup fresh_model fresh_optim cfg s0) as [[[]|e] s1];
    simpl; [|exact I].
  apply epoch_trace_chain. intros epoch s r s' H.
  apply epoch_body_training in H. destruct H as [H _].
  eexists. split; [exact H|].
  rewrite train_rows_steps. apply map_ext. intros k. lia.
Qed.

(** An epoch neither opens nor closes the log files. *)
Lemma epoch_body_open (cfg : Config) (g : list string)
    (tl : list TrainBatch) (vl : list Trial) (nt nv epoch : Z) s :
  forall r s',
    epoch_body sgd_step log_probas cfg g tl vl nt nv epoch s = (r, s') ->
    train_open s' = train_open s /\ valid_open s' = valid_open s.
Proof.
  intros r s'. rewrite epoch_body_eq.
  destruct (passes_any sgd_step log_probas tl vl nt nv epoch s)
    as (r1 & s1 & E & F).
  rewrite E. destruct F as (_ & _ & _ & _ & _ & _ & Fto & Fvo & _).
  destruct r1 as [[]|e].
  - rewrite epoch_end_eq. cbv zeta. unfold improvement.
    destruct s1 as [m o se be ba cn c a ib d tf vf to vo]. run.
    destruct (Qgtb a ba); run;
      match goal with
      | |- context [?x >? ?y] => destruct (x >? y)
      end;
      try match goal with
      | |- context [checkpoint_due ?c ?b ?e] =>
          destruct (checkpoint_due c b e)
      end;
      unfold checkpointed; run; intros H; inversion H; subst; simpl; auto.
  - intros H. inversion H; subst. auto.
Qed.

Lemma for_epochs_open (cfg : Config) (g : list string)
    (tl : list TrainBatch) (vl : list Trial) (nt nv : Z) (es : list Z) :
  forall s r s',
    for_epochs sgd_step log_probas cfg g tl vl nt nv es s = (r, s') ->
    train_open s' = train_open s /\ valid_open s' = valid_open s.
Proof.
  induction es as [|epoch es IH]; intros s r s' H; simpl in H.
  - inversion H; subst. auto.
  - unfold mbind in H.
    destruct (epoch_body sgd_step log_probas cfg g tl vl nt nv epoch s)
      as [r1 s1] eqn:E.
    apply epoch_body_open in E. destruct E as [E1 E2].
    destruct r1 as [[]|e].
    + apply IH in H. destruct H. split; congruence.
    + inversion H; subst. auto.
    + inversion H; subst. auto.
Qed.

(** X6. Once [train()] has opened the two log files, it closes them only
    when the loop runs out of epochs: when it returns on the early stop, or
    ends with an exception raised in an epoch, both files are left open. *)
Theorem log_files_closed_only_after_loop :
  forall (cfg : Config) (g : list string) (tl : list TrainBatch)
         (vl : list Trial) (s0 : TrainState ModelState OptimState),
    fst (train_setup fresh_model fresh_optim cfg s0) = Ok tt ->
    let run := train sgd_step log_probas fresh_model fresh_optim cfg g tl vl
                 s0 in
    (fst run = Ok Next ->
     train_open (snd run) = false /\ valid_open (snd run) = false)
    /\ (fst run <> Ok Next ->
        train_open (snd run) = true /\ valid_open (snd run) = true).
Proof.
  intros cfg g tl vl s0 Hset run. subst run. rewrite train_eq.
  destruct (train_setup fresh_model fresh_optim cfg s0) as [[[]|e] s1] eqn:E;
    [|discriminate].
  apply train_setup_ok in E. destruct E as (_ & _ & _ & Hto & Hvo & _).
  destruct (for_epochs sgd_step log_probas cfg g tl vl
              (Z.of_nat (List.length tl)) (Z.of_nat (List.length vl))
              (range0 (epochs cfg)) s1) as [r s'] eqn:El.
  apply for_epochs_open in El. destruct El as [E1 E2].
  destruct r as [[]|e]; simpl; split; intros H;
    try discriminate; try (now contradiction H);
    try (split; congruence).
Qed.

(** X7. With a budget of no epochs ([epochs <= 0]) [train()] runs no epoch
    and returns normally, in any namespace: the two logs are emptied and
    closed, and the checkpoint directory is as it was. *)
Theorem train_without_epochs :
  forall (cfg : Config) (g : list string) (tl : list TrainBatch)
         (vl : list Trial) (s0 : TrainState ModelState OptimState),
    epochs cfg <= 0 ->
    fst (train_setup fresh_model fresh_optim cfg s0) = Ok tt ->
    let run := train sgd_step log_probas fresh_model fresh_optim cfg g tl vl
                 s0 in
    fst run = Ok Next
    /\ train_trace sgd_step log_probas fresh_model fresh_optim cfg g tl vl s0
       = []
    /\ train_file (snd run) = [] /\ valid_file (snd run) = []
    /\ train_open (snd run) = false /\ valid_open (snd run) = false
    /\ ckpt_dir (snd run) = ckpt_dir s0.
Proof.
  intros cfg g tl vl s0 Hn Hset run. subst run.
  rewrite train_eq. unfold train_trace.
  destruct (train_setup fresh_model fresh_optim cfg s0) as [[[]|e] s1] eqn:E;
    [|discriminate].
  apply train_setup_ok in E.
  destruct E as (_ & Htf & Hvf & _ & _ & Hd).
  unfold range0. replace (Z.to_nat (epochs cfg)) with 0%nat by lia.
  simpl. destruct s1; run. auto 10.
Qed.

(** A property of every epoch of a trace, given an invariant of the states
    in which an epoch can start. *)
Lemma epoch_trace_chain_inv (cfg : Config) (g : list string)
    (tl : list TrainBatch) (vl : list Trial) (nt nv : Z)
    (J : TrainState ModelState OptimState -> Prop)
    (R : TrainState ModelState OptimState -> Z ->
         TrainState ModelState OptimState -> Prop) :
  (forall epoch s r s',
      J s ->
      epoch_body sgd_step log_probas cfg g tl vl nt nv epoch s = (r, s') ->
      R s epoch s' /\ (r = Ok Next -> J s')) ->
  forall es s,
    J s ->
    chain R s (epoch_trace sgd_step log_probas cfg g tl vl nt nv es s).
Proof.
  intros HR. induction es as [|epoch es IH]; intros s HJ; simpl; [exact I|].
  destruct (epoch_body sgd_step log_probas cfg g tl vl nt nv epoch s)
    as [r s1] eqn:E.
  destruct (HR _ _ _ _ HJ E) as [H1 H2].
  destruct r as [[]|e]; simpl; auto.
Qed.

Lemma epoch_body_counter (cfg : Config) (g : list string)
    (tl : list TrainBatch) (vl : list Trial) (epoch : Z) s :
  0 <= counter s <= Z.max 0 (train_patience cfg) ->
  forall r s',
    epoch_body sgd_step log_probas cfg g tl vl (Z.of_nat (List.length tl))
      (Z.of_nat (List.length vl)) epoch s = (r, s') ->
    counter_step sgd_step log_probas cfg g tl vl s epoch s'
    /\ (r = Ok Next -> 0 <= counter s' <= Z.max 0 (train_patience cfg)).
Proof.
  intros HJ r s' H. unfold counter_step. cbv zeta. rewrite H.
  rewrite epoch_body_eq in H.
  destruct (passes sgd_step log_probas tl vl (Z.of_nat (List.length tl))
              (Z.of_nat (List.length vl)) epoch s) as [[[]|e] s2] eqn:Ep.
  - pose proof (passes_ok_eq sgd_step log_probas tl vl _ _ _ _ _ Ep) as Hs2.
    cbv zeta in Hs2. subst s2.
    rewrite epoch_end_eq in H. cbv zeta in H. unfold improvement in H.
    destruct (existsb (String.eqb "log") g).
    all: destruct s as [m o se be ba cn c a ib d tf vf to vo].
    all: cbn [valid_acc best_valid_acc counter is_best model optimizer fst]
           in *.
    all: fold (accuracy log_probas (fst (train_net sgd_step m o tl)) vl) in H.
    all: destruct (Qgtb (accuracy log_probas (fst (train_net sgd_step m o tl))
                           vl) ba);
      unfold set_improved, set_not_improved in H;
      cbn [valid_acc best_valid_acc counter is_best model optimizer] in H;
      match type of H with
      | context [?x >? ?y] => destruct (x >? y) eqn:Ec
      end;
      try (apply Z.gtb_lt in Ec);
      try (rewrite Z.gtb_ltb in Ec; apply Z.ltb_ge in Ec);
      try match type of H with
      | context [checkpoint_due ?c ?b ?e] => destruct (checkpoint_due c b e)
      end;
      unfold checkpointed, set_ckpt_dir in H;
      inversion H; subst r s';
      cbn [valid_acc best_valid_acc counter is_best model optimizer fst];
      (split;
       [split; [lia|];
        split; [intros _; split; reflexivity|];
        split; [intros Hc; now contradiction Hc|];
        split; [intros Hr;
                first [discriminate Hr | split; [reflexivity | lia]]
               |intros [_ Hc]; first [reflexivity | lia]]
       |intros Hr; first [discriminate Hr | lia]]).
  - inversion H; subst r s'.
    destruct (passes_any sgd_step log_probas tl vl
                (Z.of_nat (List.length tl)) (Z.of_nat (List.length vl))
                epoch s) as (r1 & s1 & E1 & F).
    rewrite Ep in E1. inversion E1; subst r1 s1.
    destruct F as (_ & _ & _ & Fc & Fb & _).
    split; [|discriminate].
    split; [lia|]. split; [intros Hc; discriminate Hc|].
    split; [intros _; split; assumption|].
    split; [intros Hr; discriminate Hr | intros [Hc _]; discriminate Hc].
Qed.

(** X8. The counter of epochs without improvement along a run. After an
    epoch whose two passes complete it is 0 when the epoch's accuracy is
    strictly above the best accuracy so far, and one more than before when
    it is not; after an epoch that raises in a pass it is as before. The
    epoch returns on the early stop exactly when its passes complete and
    the counter is then above [train_patience]. The counter never leaves
    the range from 0 to [train_patience + 1] (to 1 for a negative
    patience). *)
Theorem counter_bounds :
  forall (cfg : Config) (g : list string) (tl : list TrainBatch)
         (vl : list Trial) (s0 : TrainState ModelState OptimState),
    chain (counter_step sgd_step log_probas cfg g tl vl)
      (snd (train_setup fresh_model fresh_optim cfg s0))
      (train_trace sgd_step log_probas fresh_model fresh_optim cfg g tl vl
         s0).
Proof.
  intros cfg g tl vl s0. unfold train_trace.
  destruct (train_setup fresh_model fresh_optim cfg s0) as [[[]|e] s1] eqn:E;
    simpl; [|exact I].
  apply train_setup_ok in E. destruct E as (Hc & _).
  apply (epoch_trace_chain_inv cfg g tl vl _ _
           (fun s => 0 <= counter s <= Z.max 0 (train_patience cfg))).
  - intros epoch s r s' HJ H. now apply (epoch_body_counter cfg g tl vl _ _ HJ r).
  - lia.
Qed.

(** ** Bounds on the accuracy *)

Lemma ratio_in_unit (c n : Z) :
  0 <= c <= n -> 0 < n ->
  (0 <= Qred (inject_Z c / inject_Z n) <= 1)%Q.
Proof.
  intros Hc Hn. rewrite Qred_correct.
  assert (Hq : (0 < inject_Z n)%Q).
  { change 0%Q with (inject_Z 0). rewrite <- Zlt_Qlt. exact Hn. }
  split.
  - apply Qle_shift_div_l; [exact Hq|].
    rewrite Qmult_0_l. change 0%Q with (inject_Z 0).
    rewrite <- Zle_Qle. lia.
  - apply Qle_shift_div_r; [exact Hq|].
    rewrite Qmult_1_l. rewrite <- Zle_Qle. lia.
Qed.

Lemma acc_from_unit (n : Z) (m : ModelState) (ts : list Trial) :
  forall c a,
    0 <= c -> c + Z.of_nat (List.length ts) <= n ->
    (0 <= a <= 1)%Q ->
    (0 <= acc_from log_probas n m c a ts <= 1)%Q.
Proof.
  induction ts as [|t ts IH]; intros c a Hc Hn Ha; [exact Ha|].
  simpl List.length in Hn. simpl acc_from.
  apply IH.
  - destruct (is_correct log_probas m t); lia.
  - destruct (is_correct log_probas m t); lia.
  - apply ratio_in_unit; destruct (is_correct log_probas m t); lia.
Qed.

Lemma accuracy_unit (m : ModelState) (ts : list Trial) :
  (0 <= accuracy log_probas m ts <= 1)%Q.
Proof.
  unfold accuracy. apply acc_from_unit; [lia | lia |].
  split; [apply Qle_refl | discriminate].
Qed.

Lemma train_setup_fresh (cfg : Config) s0 :
  resume cfg = false ->
  best_valid_acc (snd (train_setup fresh_model fresh_optim cfg s0)) = 0%Q
  /\ best_epoch (snd (train_setup fresh_model fresh_optim cfg s0)) = 0
  /\ start_epoch (snd (train_setup fresh_model fresh_optim cfg s0)) = 0
  /\ fst (train_setup fresh_model fresh_optim cfg s0) = Ok tt.
Proof.
  intros Hr. unfold train_setup, load_or_init. rewrite Hr.
  destruct s0. run. auto.
Qed.

(** X9. The accuracy of a validation pass lies between 0 and 1, and so
    does the best validation accuracy throughout a run that does not
    resume from a checkpoint. *)
Theorem accuracy_bounds :
  (forall (m : ModelState) (ts : list Trial),
      (0 <= accuracy log_probas m ts <= 1)%Q)
  /\ (forall (cfg : Config) (g : list string) (tl : list TrainBatch)
            (vl : list Trial) (s0 : TrainState ModelState OptimState),
        resume cfg = false ->
        chain (fun s epoch s' => (0 <= best_valid_acc s' <= 1)%Q)
          (snd (train_setup fresh_model fresh_optim cfg s0))
          (train_trace sgd_step log_probas fresh_model fresh_optim cfg g
             tl vl s0)).
Proof.
  split; [exact accuracy_unit|].
  intros cfg g tl vl s0 Hr. unfold train_trace.
  destruct (train_setup_fresh cfg s0 Hr) as (Hb & _ & _ & Hok).
  destruct (train_setup fresh_model fresh_optim cfg s0) as [[[]|e] s1];
    simpl in *; [|exact I].
  apply (epoch_trace_chain_inv cfg g tl vl _ _
           (fun s => (0 <= best_valid_acc s <= 1)%Q)).
  - intros epoch s r s' HJ H.
    assert (Hs' : (0 <= best_valid_acc s' <= 1)%Q); [|tauto].
    pose proof (epoch_body_best sgd_step log_probas cfg g tl vl _ _ _ _
                  _ _ H) as [_ [[Hsame _]|[_ [Hnew _]]]].
    + now rewrite Hsame.
    + rewrite Hnew. rewrite epoch_body_eq in H.
      destruct (passes sgd_step log_probas tl vl
                  (Z.of_nat (List.length tl)) (Z.of_nat (List.length vl))
                  epoch s) as [[[]|e] s2] eqn:Ep.
      * apply epoch_end_logs in H. destruct H as (_ & _ & Ha).
        rewrite Ha. apply passes_ok_eq in Ep. cbv zeta in Ep.
        rewrite Ep. simpl. apply accuracy_unit.
      * inversion H; subst.
        destruct (passes_any sgd_step log_probas tl vl
                    (Z.of_nat (List.length tl)) (Z.of_nat (List.length vl))
                    epoch s) as (r1 & s1' & E1 & F).
        rewrite Ep in E1. inversion E1; subst.
        destruct F as (_ & _ & Fb & _).
        rewrite <- Hnew, Fb. exact HJ.
  - rewrite Hb. split; [apply Qle_refl | discriminate].
Qed.

(** ** The checkpoints a run writes *)

Lemma epoch_body_checkpoint (cfg : Config) (g : list string)
    (tl : list TrainBatch) (vl : list Trial) (nt nv epoch : Z) s :
  forall r s',
    epoch_body sgd_step log_probas cfg g tl vl nt nv epoch s = (r, s') ->
    ckpt_dir s' = ckpt_dir s
    \/ (ckpt_dir s'
        = torch_save
            (if is_best s' then best_file (self_model_dir cfg)
             else ckpt_file (self_model_dir cfg) (epoch + 1))
            (mkCkpt (epoch + 1) (model s') (optimizer s')
               (best_valid_acc s') (best_epoch s'))
            (ckpt_dir s)
        /\ (model s', optimizer s')
           = train_net sgd_step (model s) (optimizer s) tl
        /\ (is_best s' = true \/ epoch mod 5 = 0 \/ epoch = epochs cfg)
        /\ counter s' <= train_patience cfg).
Proof.
  intros r s' H.
  destruct (epoch_body_training cfg g tl vl nt nv epoch s r s' H)
    as [_ Hnet].
  revert H. rewrite epoch_body_eq.
  destruct (passes_any sgd_step log_probas tl vl nt nv epoch s)
    as (r1 & s1 & E & F).
  rewrite E. destruct F as (_ & _ & _ & _ & _ & Fd & _).
  destruct r1 as [[]|e].
  - rewrite epoch_end_eq. cbv zeta.
    destruct (counter (improvement epoch s1) >? train_patience cfg) eqn:Ec.
    + intros H. inversion H; subst. left.
      unfold improvement.
      destruct (Qgtb (valid_acc s1) (best_valid_acc s1));
        destruct s1; run; exact Fd.
    + rewrite Z.gtb_ltb in Ec. apply Z.ltb_ge in Ec.
      destruct (checkpoint_due cfg (is_best (improvement epoch s1)) epoch)
        eqn:Ed.
      * intros H. inversion H as [[Hr Hs]]. right.
        unfold checkpoint_due in Ed.
        assert (Hwhy : is_best (improvement epoch s1) = true
                       \/ epoch mod 5 = 0 \/ epoch = epochs cfg).
        { apply orb_true_iff in Ed. destruct Ed as [Ed|Ed].
          - apply orb_true_iff in Ed. destruct Ed as [Ed|Ed]; [now left|].
            right; left. now apply Z.eqb_eq.
          - right; right. now apply Z.eqb_eq. }
        rewrite <- Hs in Hnet.
        assert (Hfields :
          is_best (checkpointed cfg epoch (improvement epoch s1))
          = is_best (improvement epoch s1)
          /\ counter (checkpointed cfg epoch (improvement epoch s1))
             = counter (improvement epoch s1)
          /\ ckpt_dir (checkpointed cfg epoch (improvement epoch s1))
             = save_checkpoint (self_model_dir cfg)
                 (mkCkpt (epoch + 1)
                    (model (checkpointed cfg epoch (improvement epoch s1)))
                    (optimizer
                       (checkpointed cfg epoch (improvement epoch s1)))
                    (best_valid_acc
                       (checkpointed cfg epoch (improvement epoch s1)))
                    (best_epoch
                       (checkpointed cfg epoch (improvement epoch s1))))
                 (is_best (improvement epoch s1))
                 (ckpt_dir s1)).
        { unfold checkpointed, improvement.
          destruct (Qgtb (valid_acc s1) (best_valid_acc s1));
            destruct s1; run; auto. }
        destruct Hfields as (Hib & Hcn & Hd).
        rewrite Hib, Hcn, Hd, Fd. repeat split; auto.
        unfold save_checkpoint.
        destruct (is_best (improvement epoch s1)); reflexivity.
      * intros H. inversion H; subst. left.
        unfold improvement.
        destruct (Qgtb (valid_acc s1) (best_valid_acc s1));
          destruct s1; run; exact Fd.
  - intros H. inversion H; subst. now left.
Qed.

(** X10. An epoch changes the checkpoint directory by at most one save:
    into [best_model.tar] when it was the best so far, into
    [model_ckpt_<epoch + 1>.tar] otherwise (so a best epoch leaves no
    periodic file). The record saved holds [epoch + 1], the network after
    the epoch's training pass and the best accuracy and best epoch after
    the epoch; it is written only when the epoch was best, or its index is
    a multiple of 5 or equals [epochs], and the early stop did not fire. *)
Theorem checkpoint_written_record :
  forall (cfg : Config) (g : list string) (tl : list TrainBatch)
         (vl : list Trial) (s0 : TrainState ModelState OptimState),
    chain
      (fun s epoch s' =>
         ckpt_dir s' = ckpt_dir s
         \/ (ckpt_dir s'
             = torch_save
                 (if is_best s' then best_file (self_model_dir cfg)
                  else ckpt_file (self_model_dir cfg) (epoch + 1))
                 (mkCkpt (epoch + 1) (model s') (optimizer s')
                    (best_valid_acc s') (best_epoch s'))
                 (ckpt_dir s)
             /\ (model s', optimizer s')
                = train_net sgd_step (model s) (optimizer s) tl
             /\ (is_best s' = true \/ epoch mod 5 = 0 \/ epoch = epochs cfg)
             /\ counter s' <= train_patience cfg))
      (snd (train_setup fresh_model fresh_optim cfg s0))
      (train_trace sgd_step log_probas fresh_model fresh_optim cfg g tl vl
         s0).
Proof.
  intros cfg g tl vl s0. unfold train_trace.
  destruct (train_setup fresh_model fresh_optim cfg s0) as [[[]|e] s1];
    simpl; [|exact I].
  apply epoch_trace_chain. intros epoch s r s'.
  apply epoch_body_checkpoint.
Qed.

(** ** [train()], then [test()] *)

(** X11. A run of [train()] that does not resume, on an empty checkpoint
    directory and with a non-negative patience, whose first epoch gets a
    trial right: it ends with the [NameError] of the summary, the directory
    then holds [best_model.tar] and nothing else, and [load_checkpoint] and
    [test()] on that directory raise [IndexError], for the best record as
    for the most recent one. *)
Theorem train_then_test_on_fresh_directory :
  forall (cfg : Config) (tl : list TrainBatch) (vl : list Trial)
         (s0 s1 s2 : TrainState ModelState OptimState),
    resume cfg = false ->
    ckpt_dir s0 = [] ->
    0 < epochs cfg ->
    0 <= train_patience cfg ->
    train_setup fresh_model fresh_optim cfg s0 = (Ok tt, s1) ->
    passes sgd_step log_probas tl vl (Z.of_nat (List.length tl))
      (Z.of_nat (List.length vl)) 0 s1 = (Ok tt, s2) ->
    (0 < valid_acc s2)%Q ->
    let run := train sgd_step log_probas fresh_model fresh_optim cfg
                 trainer_globals tl vl s0 in
    fst run = Raise (NameError "log")
    /\ map fst (ckpt_dir (snd run)) = [best_file (self_model_dir cfg)]
    /\ (forall b,
          load_checkpoint (self_model_dir cfg) b (ckpt_dir (snd run))
          = Raise IndexError)
    /\ (forall cfg' loader,
          self_model_dir cfg' = self_model_dir cfg ->
          test log_probas cfg' (ckpt_dir (snd run)) loader
          = Raise IndexError).
Proof.
  intros cfg tl vl s0 s1 s2 Hr Hd Hn Hp Hset Hpass Hacc run.
  destruct (train_setup_fresh cfg s0 Hr) as (Hb & _).
  destruct (train_setup_ok fresh_model fresh_optim cfg s0 s1 Hset)
    as (_ & _ & _ & _ & _ & Hd1).
  rewrite Hset in Hb. simpl in Hb.
  destruct (passes_any sgd_step log_probas tl vl (Z.of_nat (List.length tl))
              (Z.of_nat (List.length vl)) 0 s1) as (r & s2' & E & F).
  rewrite Hpass in E. inversion E; subst r s2'. clear E.
  destruct F as (_ & _ & Fb & _ & _ & Fd & _).
  assert (Hrange : range0 (epochs cfg)
                   = 0 :: map Z.of_nat (seq 1 (Z.to_nat (epochs cfg) - 1))).
  { unfold range0.
    replace (Z.to_nat (epochs cfg)) with (S (Z.to_nat (epochs cfg) - 1))
      at 1 by lia.
    now rewrite <- cons_seq, map_cons. }
  assert (Hrun :
    run = (Raise (NameError "log"),
           checkpointed cfg 0 (set_improved 0 s2))).
  { subst run. rewrite train_eq, Hset, Hrange. simpl for_epochs.
    unfold mbind at 1. rewrite epoch_body_eq, Hpass, epoch_end_eq.
    rewrite log_unbound. cbv zeta. unfold improvement.
    rewrite (Qlt_gtb (valid_acc s2) (best_valid_acc s2))
      by (rewrite Fb, Hb; exact Hacc).
    replace (counter (set_improved 0 s2) >? train_patience cfg) with false
      by (symmetry; rewrite Z.gtb_ltb; apply Z.ltb_ge;
          destruct s2; simpl; lia).
    replace (checkpoint_due cfg (is_best (set_improved 0 s2)) 0) with true
      by (destruct s2; reflexivity).
    reflexivity. }
  assert (Hdir : map fst (ckpt_dir (snd run))
                 = [best_file (self_model_dir cfg)]).
  { rewrite Hrun. unfold checkpointed.
    destruct s2 as [m o se be ba cn c a ib d tf vf to vo]. simpl in *.
    subst d. rewrite Hd1, Hd. reflexivity. }
  assert (Hglob : glob_ckpt (self_model_dir cfg) (ckpt_dir (snd run)) = []).
  { unfold glob_ckpt. rewrite Hdir. simpl.
    now rewrite best_file_not_globbed. }
  assert (Hload : forall b,
            load_checkpoint (self_model_dir cfg) b (ckpt_dir (snd run))
            = Raise IndexError).
  { intros b. unfold load_checkpoint. now rewrite Hglob. }
  split; [now rewrite Hrun|]. split; [exact Hdir|]. split; [exact Hload|].
  intros cfg' loader Hmd. unfold test. now rewrite Hmd, Hload.
Qed.

(** ** What [test()] reports *)

Lemma test_batches_loop_inv (m : ModelState) (ts : list Trial) :
  forall c c',
    test_batches_loop log_probas m c ts = Ok c' ->
    Forall (fun t => scored log_probas m t = true) ts
    /\ c' = count_from log_probas m c ts.
Proof.
  induction ts as [|t ts IH]; intros c c' H; simpl in H.
  - inversion H. split; [constructor | reflexivity].
  - unfold scored. simpl count_from. unfold is_correct.
    destruct (max0_index0 (log_probas m t)) as [p|e] eqn:E;
      [|discriminate].
    simpl in H. apply IH in H. destruct H as [Hs Hc].
    split; [constructor; [now rewrite E | exact Hs] | exact Hc].
Qed.

(** X12. When [test()] returns, the checkpoint asked for was loaded and
    every batch could be scored; the count is the number of batches whose
    prediction is index 0, and the percentage is that count over
    [test_loader.dataset.trials], which is not 0, whatever the number of
    batches the loader yields. *)
Theorem test_report :
  forall (cfg : Config) (d : Dir ModelState OptimState)
         (loader : TestLoader Trial) (c n : Z) (acc : Q),
    test log_probas cfg d loader = Ok (c, n, acc) ->
    exists ck,
      load_checkpoint (self_model_dir cfg) (best cfg) d = Ok ck
      /\ Forall (fun t => scored log_probas (ck_model_state ck) t = true)
           (test_batches loader)
      /\ c = count_correct log_probas (ck_model_state ck)
               (test_batches loader)
      /\ 0 <= c <= Z.of_nat (List.length (test_batches loader))
      /\ n = dataset_trials loader
      /\ n <> 0
      /\ acc = Qred (inject_Z (100 * c) / inject_Z n).
Proof.
  intros cfg d loader c n acc. unfold test.
  destruct (load_checkpoint (self_model_dir cfg) (best cfg) d) as [ck|e];
    [|discriminate].
  simpl.
  destruct (test_batches_loop log_probas (ck_model_state ck) 0
              (test_batches loader)) as [c'|e] eqn:E; [|discriminate].
  apply test_batches_loop_inv in E. destruct E as [Hs Hc].
  rewrite count_from_eq in Hc. simpl in Hc.
  simpl. unfold truediv.
  destruct (dataset_trials loader =? 0) eqn:En; [discriminate|].
  apply Z.eqb_neq in En.
  intros H. inversion H; subst.
  exists ck. repeat split; auto; apply count_correct_bounds.
Qed.

End RunFacts.

(** ** The prediction *)

Lemma argmax_from_first (l : list Q) :
  forall (pre : list Q) bi bv,
    nth_error pre bi = Some bv ->
    Forall (fun w => (w <= bv)%Q) pre ->
    (forall k w, (k < bi)%nat -> nth_error pre k = Some w -> (w < bv)%Q) ->
    exists v,
      nth_error (pre ++ l) (argmax_from bi bv (List.length pre) l) = Some v
      /\ Forall (fun w => (w <= v)%Q) (pre ++ l)
      /\ (forall k w,
            (k < argmax_from bi bv (List.length pre) l)%nat ->
            nth_error (pre ++ l) k = Some w -> (w < v)%Q).
Proof.
  induction l as [|x l IH]; intros pre bi bv Hn Hf Hlt; simpl.
  - exists bv. rewrite app_nil_r. auto.
  - replace (pre ++ x :: l) with ((pre ++ [x]) ++ l)
      by now rewrite <- app_assoc.
    replace (S (List.length pre)) with (List.length (pre ++ [x]))
      by (rewrite length_app; simpl; lia).
    destruct (Qgtb x bv) eqn:E.
    + apply Qgtb_lt in E. apply IH.
      * rewrite nth_error_app2 by lia. now rewrite Nat.sub_diag.
      * apply Forall_app. split; [|constructor; [apply Qle_refl|constructor]].
        eapply Forall_impl; [|exact Hf]. intros w Hw.
        eapply Qle_trans; [exact Hw | now apply Qlt_le_weak].
      * intros k w Hk Hw. rewrite nth_error_app1 in Hw by exact Hk.
        rewrite Forall_forall in Hf.
        eapply Qle_lt_trans; [|exact E].
        apply Hf. eapply nth_error_In. exact Hw.
    + apply Qgtb_le in E.
      assert (Hbi : (bi < List.length pre)%nat).
      { apply nth_error_Some. congruence. }
      apply IH.
      * rewrite nth_error_app1; assumption.
      * apply Forall_app. split; [assumption | now constructor].
      * intros k w Hk Hw. apply (Hlt k w Hk).
        rewrite nth_error_app1 in Hw by lia. exact Hw.
Qed.

Lemma column0_length (t : list (list Q)) :
  forall col, column0 t = Ok col -> List.length col = List.length t.
Proof.
  induction t as [|row t IH]; intros col H; simpl in H.
  - now inversion H.
  - destruct row as [|v row]; [discriminate|].
    destruct (column0 t) as [col'|e]; [|discriminate].
    simpl in H. inversion H; subst. simpl. f_equal. now apply IH.
Qed.

(** X13. When the prediction [max(0)[1][0]] of a tensor of scores is
    defined, it is the index of a row of the tensor whose score in column 0
    no row exceeds, and the first such row: every row before it has a
    strictly smaller score. So a trial counts as correct exactly when no
    candidate scores strictly higher than the first one. *)
Theorem prediction_is_first_greatest :
  forall (t : list (list Q)) (i : Z),
    max0_index0 t = Ok i ->
    exists col v,
      column0 t = Ok col
      /\ List.length col = List.length t
      /\ 0 <= i < Z.of_nat (List.length t)
      /\ nth_error col (Z.to_nat i) = Some v
      /\ Forall (fun w => (w <= v)%Q) col
      /\ (forall k w,
            (k < Z.to_nat i)%nat -> nth_error col k = Some w -> (w < v)%Q)
      /\ (i = 0 <-> Forall (fun w => (w <= hd 0%Q col)%Q) (tl col)).
Proof.
  intros t i. unfold max0_index0.
  destruct (column0 t) as [col|e] eqn:Ec; [|discriminate].
  simpl. intros H. pose proof (column0_length t col Ec) as Hlen.
  destruct col as [|x l]; [discriminate|].
  pose proof (proj1 (argmax_zero x l)) as Hz1.
  pose proof (proj2 (argmax_zero x l)) as Hz2.
  simpl in H. inversion H as [Hi]. clear H. subst i.
  destruct (argmax_from_first l [x] 0%nat x) as (v & Hv & Hall & Hfirst).
  - reflexivity.
  - constructor; [apply Qle_refl | constructor].
  - intros k w Hk. lia.
  - simpl List.length in Hv, Hfirst.
    exists (x :: l), v. rewrite Nat2Z.id.
    split; [reflexivity|]. split; [exact Hlen|]. split.
    + rewrite <- Hlen. simpl List.length.
      destruct (argmax_from_range l 0%nat x 1) as [Hr|Hr]; lia.
    + split; [exact Hv|]. split; [exact Hall|]. split; [exact Hfirst|].
      simpl hd. simpl tl. split.
      * intros H0. apply Hz1. simpl. now rewrite H0.
      * intros Hf. specialize (Hz2 Hf). simpl in Hz2.
        now inversion Hz2.
Qed.

(** ** Instances of the further theorems *)

Lemma periodic_round_trip_witness :
  load_checkpoint "models/1" false
    (save_checkpoint "models/1" (Toy.ckpt 10) false (Toy.saved [3; 1; 2]))
  = Ok (Toy.ckpt 10).
Proof.
  apply (periodic_round_trip "models/1" (Toy.ckpt 10) (Toy.saved [3; 1; 2])
           eq_refl).
  intros q Hq Hne. vm_compute in Hq.
  destruct Hq as [<-|[<-|[<-|[]]]]; vm_compute; lia.
Defined.

Lemma log_files_witness :
  train_open
    (snd (Toy.train (Toy.config 12 3 false false) Toy.globals_with_log [1%Q]
            [Toy.hit; Toy.miss] (Toy.boot [] [] []))) = true
  /\ valid_open
      (snd (Toy.train (Toy.config 12 3 false false) Toy.globals_with_log
              [1%Q] [Toy.hit; Toy.miss] (Toy.boot [] [] []))) = true.
Proof.
  apply (log_files_closed_only_after_loop Toy.sgd_step Toy.log_probas 0%nat
           tt (Toy.config 12 3 false false) Toy.globals_with_log [1%Q]
           [Toy.hit; Toy.miss] (Toy.boot [] [] []) eq_refl).
  vm_compute. discriminate.
Defined.

Lemma train_without_epochs_witness :
  fst (Toy.train (Toy.config 0 3 false false) trainer_globals [1%Q]
         [Toy.hit] (Toy.boot (Toy.saved [6]) [(5, 1%Q)] [(7, 1 # 2)]))
  = Ok Next
  /\ valid_file
      (snd (Toy.train (Toy.config 0 3 false false) trainer_globals [1%Q]
              [Toy.hit] (Toy.boot (Toy.saved [6]) [(5, 1%Q)] [(7, 1 # 2)])))
    = [].
Proof.
  destruct (train_without_epochs Toy.sgd_step Toy.log_probas 0%nat tt
              (Toy.config 0 3 false false) trainer_globals [1%Q] [Toy.hit]
              (Toy.boot (Toy.saved [6]) [(5, 1%Q)] [(7, 1 # 2)]))
    as (H1 & _ & _ & H2 & _).
  - simpl. lia.
  - reflexivity.
  - split; [exact H1 | exact H2].
Defined.

Lemma train_then_test_witness :
  Toy.test (Toy.config 12 3 false true)
    (ckpt_dir
       (snd (Toy.train (Toy.config 12 3 false false) trainer_globals [1%Q]
               [Toy.hit; Toy.miss] (Toy.boot [] [] []))))
    (mkTestLoader [Toy.hit] 1)
  = Raise IndexError.
Proof.
  destruct (train_then_test_on_fresh_directory Toy.sgd_step Toy.log_probas
              0%nat tt (Toy.config 12 3 false false) [1%Q]
              [Toy.hit; Toy.miss] (Toy.boot [] [] [])
              (snd (train_setup 0%nat tt (Toy.config 12 3 false false)
                      (Toy.boot [] [] [])))
              (snd (passes Toy.sgd_step Toy.log_probas [1%Q]
                      [Toy.hit; Toy.miss] 1 2 0
                      (snd (train_setup 0%nat tt
                              (Toy.config 12 3 false false)
                              (Toy.boot [] [] []))))))
    as (_ & _ & _ & Ht).
  - reflexivity.
  - reflexivity.
  - simpl. lia.
  - simpl. lia.
  - reflexivity.
  - reflexivity.
  - reflexivity.
  - apply (Ht (Toy.config 12 3 false true) (mkTestLoader [Toy.hit] 1)).
    reflexivity.
Defined.

Lemma test_report_witness :
  exists ck,
    load_checkpoint "models/1" false (Toy.saved [6]) = Ok ck
    /\ 2 = count_correct Toy.log_probas (ck_model_state ck)
             [Toy.hit; Toy.miss; Toy.hit].
Proof.
  destruct (test_report Toy.log_probas (Toy.config 12 3 false false)
              (Toy.saved [6])
              (mkTestLoader [Toy.hit; Toy.miss; Toy.hit] 2) 2 2 100%Q
              eq_refl)
    as (ck & Hl & _ & Hc & _).
  exists ck. split; [exact Hl | exact Hc].
Defined.

Lemma prediction_witness :
  exists col v,
    column0 [[1 # 2]; [3 # 4]; [3 # 4]; [1 # 4]]%Q = Ok col
    /\ nth_error col 1 = Some v
    /\ Forall (fun w => (w <= v)%Q) col.
Proof.
  destruct (prediction_is_first_greatest
              [[1 # 2]; [3 # 4]; [3 # 4]; [1 # 4]]%Q 1 eq_refl)
    as (col & v & Hc & _ & _ & Hv & Hall & _).
  exists col, v. split; [exact Hc|]. split; [exact Hv | exact Hall].
Defined.

(** An empty directory; one with a periodic checkpoint only while the best
    one is asked for; and a resuming run on the latter. *)
Lemma missing_checkpoint_witness :
  Toy.test (Toy.config 12 3 false false) (Toy.saved [])
    (mkTestLoader [Toy.hit] 1) = Raise IndexError
  /\ Toy.test (Toy.config 12 3 false true) (Toy.saved [6])
      (mkTestLoader [Toy.hit] 1)
    = Raise (FileNotFoundError "models/1/best_model.tar")
  /\ fst (train_setup 0%nat tt (Toy.config 12 3 true true)
           (Toy.boot (Toy.saved [6]) [] [])) = Ok tt.
Proof.
  split; [|split].
  - destruct (missing_checkpoint_errors Toy.sgd_step Toy.log_probas 0%nat tt
                (Toy.config 12 3 false false) (Toy.saved []) eq_refl)
      as [H _].
    destruct (H eq_refl) as (_ & Ht & _). now apply Ht.
  - destruct (missing_checkpoint_errors Toy.sgd_step Toy.log_probas 0%nat tt
                (Toy.config 12 3 false true) (Toy.saved [6]) eq_refl)
      as (_ & H & _).
    destruct H as [_ Ht].
    + vm_compute. intuition discriminate.
    + now apply Ht.
  - destruct (missing_checkpoint_errors Toy.sgd_step Toy.log_probas 0%nat tt
                (Toy.config 12 3 true true) (Toy.saved [6]) eq_refl)
      as (_ & _ & H).
    apply H; [reflexivity | discriminate | reflexivity].
Defined.

Lemma best_round_trip_witness :
  load_checkpoint "models/1" true
    (save_checkpoint "models/1" (Toy.ckpt 7) true (Toy.saved [6]))
  = Ok (Toy.ckpt 7)
  /\ load_checkpoint "models/1" true
       (save_checkpoint "models/1" (Toy.ckpt 7) true (Toy.saved []))
     = Raise IndexError.
Proof.
  split.
  - exact (best_round_trip "models/1" (Toy.ckpt 7) (Toy.saved [6]) eq_refl).
  - exact (best_round_trip "models/1" (Toy.ckpt 7) (Toy.saved []) eq_refl).
Defined.

Lemma load_most_recent_witness :
  exists ck,
    load_checkpoint "models/1" false (Toy.saved [3; 1; 10; 2]) = Ok ck.
Proof.
  destruct (load_most_recent_characterised "models/1"
              (Toy.saved [3; 1; 10; 2]) eq_refl) as (_ & H & _).
  apply H. discriminate.
Defined.

(** The counter along the run of six epochs whose accuracy is 1/2, 1/2, 1,
    1, 1, 1. *)
Example counter_run :
  map (fun x => (is_best (snd x), counter (snd x)))
    (Toy.train_trace (Toy.config 6 3 false false) Toy.globals_with_log
       [1%Q] [Toy.hit; Toy.hit_after 2] (Toy.boot [] [] []))
  = [(true, 0); (false, 1); (true, 0); (false, 1); (false, 2); (false, 3)].
Proof. vm_compute. reflexivity. Qed.
